(** * local-perplexity: the query-to-answer pipeline

    A shallow embedding of the two pipeline variants of the repository,
    [perplexity.py] and [perplexity_optimized.py], together with
    [schemas.py] and [prompts.py], and the properties of the three graph
    nodes (planner, search loop, final writer) and of the graph that chains
    them.

    Conventions.
    - A Python [str] is a list of Unicode code points ([list N]); [len] is
      [length] and [s[:n]] is [take n s].
    - The collaborators (Tavily search, the Ollama chat models) are not
      part of the program. A node is a tree of calls to them ([prog]); each
      call hands its continuation either a value or the description of the
      exception that the call raised. A [try]/[except] of the source is a
      case distinction on that outcome.
    - [print] calls only log and are left out. *)

From Stdlib Require Import String Ascii NArith ZArith List Lia DecimalString DecimalNat.
From stdpp Require Import gmap strings list.

(* ===================================================================== *)
(** ** Text: the [str] operations the nodes use                          *)
(* ===================================================================== *)

Module Text.

Definition char := N.
Definition str := list char.

(** A literal of the source, one code point per (ASCII) character. *)
Definition lit (s : string) : str :=
  List.map N_of_ascii (list_ascii_of_string s).
Arguments lit s%_string.

Definition nl : str := [10%N].
Definition dquote : str := [34%N].

(** [sep.join(parts)] *)
Fixpoint join (sep : str) (parts : list str) : str :=
  match parts with
  | [] => []
  | [p] => p
  | p :: rest => p ++ sep ++ join sep rest
  end.

(** The lines of a template, joined by newlines. *)
Definition text (lines : list str) : str := join nl lines.

(** [s.split(sep)] for a one-character separator: never the empty list. *)
Fixpoint split (sep : char) (s : str) : list str :=
  match s with
  | [] => [[]]
  | c :: s' =>
      if N.eqb c sep then [] :: split sep s'
      else match split sep s' with
           | [] => [[c]]
           | w :: ws => (c :: w) :: ws
           end
  end.

(** [c.isspace()]: the code points Python's [str.strip()] removes. *)
Definition isspace (c : char) : bool :=
  ((9 <=? c) && (c <=? 13) || (28 <=? c) && (c <=? 32)
   || (c =? 133) || (c =? 160) || (c =? 5760)
   || (8192 <=? c) && (c <=? 8202)
   || (c =? 8232) || (c =? 8233) || (c =? 8239) || (c =? 8287)
   || (c =? 12288))%N.

Fixpoint lstrip_by (p : char -> bool) (s : str) : str :=
  match s with
  | [] => []
  | c :: s' => if p c then lstrip_by p s' else s
  end.

Definition rstrip_by (p : char -> bool) (s : str) : str :=
  rev (lstrip_by p (rev s)).

(** [s.strip()] *)
Definition strip (s : str) : str := rstrip_by isspace (lstrip_by isspace s).

(** [s.lstrip(chars)]: drops the leading characters that occur in [chars]. *)
Definition lstrip (chars : str) (s : str) : str :=
  lstrip_by (fun c => existsb (N.eqb c) chars) s.

(** [str(n)] for a non-negative [int]. *)
Definition str_of_nat (n : nat) : str :=
  lit (NilEmpty.string_of_uint (Nat.to_uint n)).

(** [enumerate(l, start)] *)
Fixpoint enumerate {A : Type} (start : nat) (l : list A) : list (nat * A) :=
  match l with
  | [] => []
  | x :: l' => (start, x) :: enumerate (S start) l'
  end.

End Text.
Import Text.

(* ===================================================================== *)
(** ** schemas.py                                                        *)
(* ===================================================================== *)

Record QueryResult := mkQueryResult {
  title : str;
  url : str;
  resume : str
}.

Record ReportState := mkReportState {
  user_input : str;
  queries : list str;
  queries_results : list QueryResult;
  final_response : str
}.

(** [ReportState(user_input=question)]: every other field at its default. *)
Definition initial_state (question : str) : ReportState :=
  {| user_input := question; queries := []; queries_results := [];
     final_response := [] |}.

(* ===================================================================== *)
(** ** Collaborators and effects                                         *)
(* ===================================================================== *)

(** One hit of the search provider: a dict whose keys may be missing;
    [raw_content] may also be [None], which [.get] does not tell from a
    missing key. *)
Record hit := mkHit {
  hit_title : option str;
  hit_url : option str;
  hit_content : option str;
  hit_raw_content : option str
}.

(** The response dict of [tavily_search]; [results] may be missing. *)
Record response := mkResponse { results : option (list hit) }.

(** Outcome of a call: a value, or an exception with its [str(e)]. *)
Inductive result (A : Type) : Type :=
| Ok (a : A)
| Raise (e : str).
Arguments Ok {A} a.
Arguments Raise {A} e.

(** The chat models: [planner_llm] and [reasoning_llm] of perplexity.py,
    and the cached [get_llm()] of perplexity_optimized.py. *)
Inductive model := planner_llm | reasoning_llm | get_llm.

(** A node as a tree of collaborator calls. [tavily_search] is the wrapper
    of utils.py; [with_structured_output] is
    [m.with_structured_output(QueryList).invoke(prompt).queries];
    [invoke] is [m.invoke(prompt).content]. *)
Inductive prog (A : Type) : Type :=
| Ret (a : A)
| tavily_search (query : str) (max_results : nat) (include_raw_content : bool)
    (k : result response -> prog A)
| with_structured_output (m : model) (prompt : str)
    (k : result (list str) -> prog A)
| invoke (m : model) (prompt : str) (k : result str -> prog A).
Arguments Ret {A} a.
Arguments tavily_search {A} query max_results include_raw_content k.
Arguments with_structured_output {A} m prompt k.
Arguments invoke {A} m prompt k.

Fixpoint prog_bind {A B : Type} (f : A -> prog B) (p : prog A) : prog B :=
  match p with
  | Ret a => f a
  | tavily_search q n raw k => tavily_search q n raw (fun r => prog_bind f (k r))
  | with_structured_output m s k =>
      with_structured_output m s (fun r => prog_bind f (k r))
  | invoke m s k => invoke m s (fun r => prog_bind f (k r))
  end.

#[global] Instance prog_mret : MRet prog := @Ret.
#[global] Instance prog_mbind : MBind prog := @prog_bind.

(** What a run of a node observes: each call with its outcome. *)
Inductive event :=
| EvSearch (query : str) (max_results : nat) (include_raw_content : bool)
    (r : result response)
| EvStructured (m : model) (prompt : str) (r : result (list str))
| EvInvoke (m : model) (prompt : str) (r : result str).

(** [returns p tr a]: [p] can run to the value [a], the collaborators
    having been called and having answered as [tr] lists, in that order. *)
Inductive returns {A : Type} : prog A -> list event -> A -> Prop :=
| returns_Ret a : returns (Ret a) [] a
| returns_search q n raw k r tr a :
    returns (k r) tr a ->
    returns (tavily_search q n raw k) (EvSearch q n raw r :: tr) a
| returns_structured m s k r tr a :
    returns (k r) tr a ->
    returns (with_structured_output m s k) (EvStructured m s r :: tr) a
| returns_invoke m s k r tr a :
    returns (k r) tr a ->
    returns (invoke m s k) (EvInvoke m s r :: tr) a.

(** The collaborators of one run, with whatever state [W] they keep:
    they may answer the same request differently each time. *)
Record collaborators (W : Type) := mkCollaborators {
  search_provider : str -> nat -> bool -> W -> result response * W;
  structured_model : model -> str -> W -> result (list str) * W;
  chat_model : model -> str -> W -> result str * W
}.
Arguments search_provider {W} c.
Arguments structured_model {W} c.
Arguments chat_model {W} c.

(** Running a node against given collaborators: the value, the calls made
    and the collaborators' final state. *)
Fixpoint exec {W A : Type} (c : collaborators W) (p : prog A) (w : W)
  : A * list event * W :=
  match p with
  | Ret a => (a, [], w)
  | tavily_search q n raw k =>
      let '(r, w1) := search_provider c q n raw w in
      let '(a, tr, w2) := exec c (k r) w1 in
      (a, EvSearch q n raw r :: tr, w2)
  | with_structured_output m s k =>
      let '(r, w1) := structured_model c m s w in
      let '(a, tr, w2) := exec c (k r) w1 in
      (a, EvStructured m s r :: tr, w2)
  | invoke m s k =>
      let '(r, w1) := chat_model c m s w in
      let '(a, tr, w2) := exec c (k r) w1 in
      (a, EvInvoke m s r :: tr, w2)
  end.

Definition value_of {W A : Type} (x : A * list event * W) : A := x.1.1.
Definition calls_of {W A : Type} (x : A * list event * W) : list event := x.1.2.

(** *** The body of a [try]: a computation that may end by raising *)

Definition call_search (q : str) (n : nat) (raw : bool) : prog (result response) :=
  tavily_search q n raw Ret.
Definition call_structured (m : model) (s : str) : prog (result (list str)) :=
  with_structured_output m s Ret.
Definition call_invoke (m : model) (s : str) : prog (result str) :=
  invoke m s Ret.

(** Sequencing inside a [try]: an exception skips the rest of the body. *)
Definition bind_ok {A B : Type} (p : prog (result A))
    (f : A -> prog (result B)) : prog (result B) :=
  r ← p; match r with Ok a => f a | Raise e => mret (Raise e) end.

Notation "x <- p ; k" := (bind_ok p (fun x => k))
  (at level 20, p at level 100, k at level 200, only parsing).

(** [try: body  except Exception as e: handler e] *)
Definition try_except {A : Type} (body : prog (result A))
    (handler : str -> prog A) : prog A :=
  r ← body; match r with Ok a => mret a | Raise e => handler e end.

(** [d[key]] on a dict whose [key] may be missing: [KeyError(key)]. *)
Definition getitem (key : string) (field : option str) : prog (result str) :=
  mret (match field with
        | Some v => Ok v
        | None => Raise (lit "'" ++ lit key ++ lit "'")
        end).

(** *** The partial update a node returns, and how the graph applies it *)

Inductive value :=
| VStr (s : str)
| VQueries (l : list str)
| VResults (l : list QueryResult).

Abbreviation update := (gmap string value).

(** The state graph writes each key of a node's update into the field of
    that name and leaves every other field as it was. *)
Definition merge (st : ReportState) (u : update) : ReportState :=
  {| user_input :=
       match u !! "user_input" with Some (VStr s) => s | _ => user_input st end;
     queries :=
       match u !! "queries" with Some (VQueries l) => l | _ => queries st end;
     queries_results :=
       match u !! "queries_results" with
       | Some (VResults l) => l
       | _ => queries_results st
       end;
     final_response :=
       match u !! "final_response" with
       | Some (VStr s) => s
       | _ => final_response st
       end |}.

(* ===================================================================== *)
(** ** prompts.py                                                        *)
(* ===================================================================== *)

(** Each template is a function of the values [str.format] substitutes. *)
Module Prompts.

Definition agent_prompt (user_input : str) : str :=
  text [ [];
         lit "You are a research planner.";
         [];
         lit "You are working on a project that aims to answer user's questions";
         lit "using sources found online.";
         [];
         lit "Your answer MUST be technical, using up-to-date information.";
         lit "Cite facts, data and specific information.";
         [];
         lit "Here is the user input";
         lit "<USER_INPUT>";
         user_input;
         lit "</USER_INPUT>";
         [] ].

Definition build_queries (user_input : str) : str :=
  agent_prompt user_input ++
  text [ [];
         lit "Your first objective is to build a list of queries";
         lit "that will be used to find answers to the user's question.";
         [];
         lit "Return 3-5 queries.";
         [] ].

Definition resume_search (user_input search_results : str) : str :=
  agent_prompt user_input ++
  text [ [];
         lit "Your objective here is to analyze the web search results and make a synthesis,";
         lit "emphasising only what is relevant to the user's question.";
         [];
         lit "After your work, another agent will use the synthesis to build the final response,";
         lit "so keep only useful information. Be concise and clear.";
         [];
         lit "Here are the web search results:";
         lit "<SEARCH_RESULTS>";
         search_results;
         lit "</SEARCH_RESULTS>";
         [] ].

Definition build_final_response (user_input search_results : str) : str :=
  agent_prompt user_input ++
  text [ [];
         lit "Your objective is to develop a final response to the user using";
         lit "the reports built during the web search.";
         [];
         lit "The response should contain 500-800 words.";
         [];
         lit "Here are the search results:";
         lit "<SEARCH_RESULTS>";
         search_results;
         lit "</SEARCH_RESULTS>";
         [];
         lit "Cite your references with numbered tags, e.g. [1], inside each paragraph.";
         [] ].

End Prompts.

(* ===================================================================== *)
(** ** perplexity.py                                                     *)
(* ===================================================================== *)

Module Perplexity.

(** [build_first_queries]: the planner. *)
Definition build_first_queries (state : ReportState) : prog update :=
  let prompt := Prompts.build_queries (user_input state) in
  try_except
    (queries <- call_structured planner_llm prompt;
     mret (Ok ({[ "queries" := VQueries queries ]} : update)))
    (fun e => mret {[ "queries" := VQueries [user_input state] ]}).

(** One turn of the loop of [serial_search]: the [try] body for the query
    [q]. [None] is a [continue] that appends nothing. *)
Definition serial_search_body (state : ReportState) (q : str)
  : prog (result (option QueryResult)) :=
  tavily_resp <- call_search q 1 true;
  match results tavily_resp with
  | Some (r :: _) =>
      raw <- match hit_raw_content r with
             | Some (c :: s) => mret (Ok (c :: s))
             | _ => getitem "content" (hit_content r)
             end;
      let synth_prompt := Prompts.resume_search (user_input state) raw in
      summary <- call_invoke planner_llm synth_prompt;
      title <- getitem "title" (hit_title r);
      url <- getitem "url" (hit_url r);
      let query_result := mkQueryResult title url summary in
      mret (Ok (Some query_result))
  | _ => mret (Ok None)
  end.

(** The turn with its [except Exception: continue]. *)
Definition serial_search_query (state : ReportState) (q : str)
  : prog (option QueryResult) :=
  try_except (serial_search_body state q) (fun e => mret None).

Fixpoint serial_search_loop (state : ReportState) (qs : list str)
    (collected : list QueryResult) : prog (list QueryResult) :=
  match qs with
  | [] => mret collected
  | q :: rest =>
      o ← serial_search_query state q;
      serial_search_loop state rest
        (match o with Some qr => collected ++ [qr] | None => collected end)
  end.

(** [serial_search]: the search loop. *)
Definition serial_search (state : ReportState) : prog update :=
  collected ← serial_search_loop state (queries state) [];
  mret {[ "queries_results" := VResults collected ]}.

Definition no_information : str :=
  lit "N" ++ [227%N] ++ lit "o foi poss" ++ [237%N] ++
  lit "vel encontrar informa" ++ [231%N; 245%N] ++
  lit "es relevantes para sua pergunta.".

(** The section of the model's prompt for the result numbered [idx]. *)
Definition body_part (idx : nat) (res : QueryResult) : str :=
  lit "[" ++ str_of_nat idx ++ lit "]" ++ nl ++
  lit "Title: " ++ title res ++ nl ++
  lit "URL: " ++ url res ++ nl ++
  lit "Content: " ++ resume res ++ nl ++
  lit "----------------" ++ nl.

(** The entry of the reference list for the result numbered [idx]. *)
Definition ref_part (idx : nat) (res : QueryResult) : str :=
  lit "[" ++ str_of_nat idx ++ lit "] - [" ++ title res ++ lit "](" ++
  url res ++ lit ")".

Definition body_parts (rs : list QueryResult) : list str :=
  List.map (fun '(idx, res) => body_part idx res) (enumerate 1 rs).

Definition ref_parts (rs : list QueryResult) : list str :=
  List.map (fun '(idx, res) => ref_part idx res) (enumerate 1 rs).

Definition references_heading : str := nl ++ nl ++ lit "References:" ++ nl.

Definition error_prefix : str := lit "Erro ao gerar resposta: ".

(** [final_writer]: the final synthesizer. *)
Definition final_writer (state : ReportState) : prog update :=
  match queries_results state with
  | [] => mret {[ "final_response" := VStr no_information ]}
  | _ =>
      let prompt :=
        Prompts.build_final_response (user_input state)
          (join [] (body_parts (queries_results state))) in
      try_except
        (final_text <- call_invoke reasoning_llm prompt;
         let full_answer :=
           (final_text ++ references_heading) ++
           join nl (ref_parts (queries_results state)) in
         mret (Ok ({[ "final_response" := VStr full_answer ]} : update)))
        (fun e => mret {[ "final_response" := VStr (error_prefix ++ e) ]})
  end.

(** [create_graph]: START, build_queries, serial_search, final_writer, END;
    [graph.invoke] applies each node's update before the next node runs. *)
Definition graph_invoke (st0 : ReportState) : prog ReportState :=
  u1 ← build_first_queries st0;
  let st1 := merge st0 u1 in
  u2 ← serial_search st1;
  let st2 := merge st1 u2 in
  u3 ← final_writer st2;
  mret (merge st2 u3).

(** The entry point: the question in, [final_response] out. *)
Definition run (question : str) : prog str :=
  st ← graph_invoke (initial_state question);
  mret (final_response st).

End Perplexity.

(* ===================================================================== *)
(** ** perplexity_optimized.py                                           *)
(* ===================================================================== *)

Module PerplexityOptimized.

Section Nodes.

(** [str.lower], which depends on the Unicode tables: the nodes are
    defined, and their properties hold, for any such function. *)
Variable lower : str -> str.

Definition QUERY_PROMPT (user_input : str) : str :=
  text [ lit "Create 2-3 specific search queries to answer: " ++
           dquote ++ user_input ++ dquote;
         [];
         lit "Examples:";
         lit "Question: " ++ dquote ++ lit "How do neural networks work?" ++ dquote;
         lit "Queries:";
         lit "- neural networks explained";
         lit "- how neural networks learn";
         lit "- neural network architecture";
         [];
         lit "Now create queries for: " ++ dquote ++ user_input ++ dquote;
         lit "Return only the queries, one per line:" ].

Definition FINAL_PROMPT (user_input search_results : str) : str :=
  text [ lit "You are an AI assistant providing comprehensive answers using clean Markdown formatting.";
         [];
         lit "Question: " ++ user_input;
         [];
         lit "Search Results:";
         search_results;
         [];
         lit "Write a detailed answer using ONLY standard Markdown formatting:";
         lit "- Use # for main title, ## for major sections, ### for subsections";
         lit "- Use **bold** for important terms";
         lit "- Use - for bullet points (single dash with space)";
         lit "- Use numbered lists (1. 2. 3.) for sequential steps";
         lit "- Use > for important quotes or key insights";
         lit "- Reference sources as [1], [2] naturally in text";
         lit "- Keep paragraphs clean with line breaks";
         lit "- Structure: Introduction " ++ [8594%N] ++ lit " Key Concepts " ++
           [8594%N] ++ lit " Details " ++ [8594%N] ++ lit " Applications";
         [];
         lit "Write in clean Markdown format:";
         [];
         lit "# " ++ user_input;
         [];
         lit "[Your detailed answer here using proper Markdown]";
         [];
         lit "## Sources";
         lit "[You don't need to write sources section, just the answer]";
         [] ].

(** [line.strip().lstrip('- ').lstrip('1234567890. ')] *)
Definition clean_line (line : str) : str :=
  lstrip (lit "1234567890. ") (lstrip (lit "- ") (strip line)).

(** The loop over the lines of the model's answer. *)
Fixpoint parse_lines (lines : list str) (queries : list str) : list str :=
  match lines with
  | [] => queries
  | line :: rest =>
      let line := clean_line line in
      parse_lines rest
        (if bool_decide (line <> []) && (3 <? length line)
         then queries ++ [line] else queries)
  end.

(** [generate_queries]: the planner. *)
Definition generate_queries (state : ReportState) : prog update :=
  try_except
    (let prompt := QUERY_PROMPT (user_input state) in
     response <- call_invoke get_llm prompt;
     let lines := split 10%N (strip response) in
     let queries := parse_lines lines [] in
     let queries :=
       match queries with
       | [] =>
           let base_terms := lower (user_input state) in
           [ base_terms ++ lit " explained";
             lit "what is " ++ base_terms;
             lit "how does " ++ base_terms ++ lit " work" ]
       | _ => queries
       end in
     let queries := take 3 queries in
     mret (Ok ({[ "queries" := VQueries queries ]} : update)))
    (fun e =>
       let base := lower (user_input state) in
       mret {[ "queries" := VQueries [base; lit "what is " ++ base] ]}).

Definition default_title : str := lit "Sem t" ++ [237%N] ++ lit "tulo".

(** [r.get("raw_content") or r.get("content", "")] *)
Definition selected_content (r : hit) : str :=
  match hit_raw_content r with
  | Some (c :: s) => c :: s
  | _ => default [] (hit_content r)
  end.

(** The [QueryResult] built from the first hit [r]. *)
Definition query_result_of (r : hit) : QueryResult :=
  let content := selected_content r in
  let content := match content with [] => [] | _ => take 1000 content end in
  {| title := default default_title (hit_title r);
     url := default [] (hit_url r);
     resume := content |}.

(** The loop of [execute_search], inside its single [try]: the list
    collected so far, and how the loop ended. An exception ends it. *)
Fixpoint execute_search_loop (qs : list str) (collected : list QueryResult)
  : prog (list QueryResult * result unit) :=
  match qs with
  | [] => mret (collected, Ok tt)
  | query :: rest =>
      answer ← call_search query 1 true;
      match answer with
      | Raise e => mret (collected, Raise e)
      | Ok tavily_resp =>
          execute_search_loop rest
            (match results tavily_resp with
             | Some (r :: _) => collected ++ [query_result_of r]
             | _ => collected
             end)
      end
  end.

(** [execute_search]: the search stage. Its [except] clause only logs. *)
Definition execute_search (state : ReportState) : prog update :=
  '(collected, _) ← execute_search_loop (queries state) [];
  mret {[ "queries_results" := VResults collected ]}.

Definition no_information : str :=
  lit "N" ++ [227%N] ++ lit "o foi poss" ++ [237%N] ++
  lit "vel encontrar informa" ++ [231%N; 245%N] ++ lit "es relevantes.".

(** One entry of [search_context]. *)
Definition context_part (i : nat) (res : QueryResult) : str :=
  lit "[" ++ str_of_nat i ++ lit "] " ++ title res ++ lit ": " ++ resume res.

Definition search_context (rs : list QueryResult) : list str :=
  List.map (fun '(i, res) => context_part i res) (enumerate 1 rs).

Definition error_prefix : str := lit "Erro ao gerar resposta: ".

(** [write_response]: the final synthesizer. *)
Definition write_response (state : ReportState) : prog update :=
  match queries_results state with
  | [] => mret {[ "final_response" := VStr no_information ]}
  | _ =>
      try_except
        (let context := join (nl ++ nl) (search_context (queries_results state)) in
         let prompt := FINAL_PROMPT (user_input state) context in
         response <- call_invoke get_llm prompt;
         mret (Ok ({[ "final_response" := VStr (strip response) ]} : update)))
        (fun e => mret {[ "final_response" := VStr (error_prefix ++ e) ]})
  end.

(** [create_graph]: START, generate_queries, execute_search,
    write_response, END. *)
Definition graph_invoke (st0 : ReportState) : prog ReportState :=
  u1 ← generate_queries st0;
  let st1 := merge st0 u1 in
  u2 ← execute_search st1;
  let st2 := merge st1 u2 in
  u3 ← write_response st2;
  mret (merge st2 u3).

Definition run (question : str) : prog str :=
  st ← graph_invoke (initial_state question);
  mret (final_response st).

End Nodes.

End PerplexityOptimized.

(* ===================================================================== *)
(** ** utils.py: formatting of sources                                   *)
(* ===================================================================== *)

Module Utils.

(** [str(n)] for an [int]. *)
Definition str_of_int (n : Z) : str :=
  if (n <? 0)%Z then lit "-" ++ str_of_nat (Z.to_nat (- n))
  else str_of_nat (Z.to_nat n).

(** [s[:n]] for an [int]: a negative [n] counts from the end. *)
Definition slice_to (n : Z) (s : str) : str :=
  if (n <? 0)%Z then take (Z.to_nat (Z.of_nat (length s) + n)) s
  else take (Z.to_nat n) s.

(** The argument [search_response]: a response dict, a list of them, or a
    value of another type. *)
Inductive search_response :=
| a_dict (resp : response)
| a_list (resps : list response)
| another_value.

(** [resp.get("results", [])] *)
Definition get_results (resp : response) : list hit :=
  default [] (results resp).

(** [d[key] = v] on a dict, kept in insertion order: a key that is there
    keeps its place and takes the new value. *)
Fixpoint dict_set (key : str) (v : hit) (d : list (str * hit))
  : list (str * hit) :=
  match d with
  | [] => [(key, v)]
  | (k, v') :: d' =>
      if decide (k = key) then (key, v) :: d' else (k, v') :: dict_set key v d'
  end.

(** [{src["url"]: src for src in sources_list}], filled from the dict
    [unique] so far: a source without [url] raises [KeyError]. *)
Fixpoint by_url (sources_list : list hit) (unique : list (str * hit))
  : result (list (str * hit)) :=
  match sources_list with
  | [] => Ok unique
  | src :: rest =>
      match hit_url src with
      | Some u => by_url rest (dict_set u src unique)
      | None => Raise (lit "'url'")
      end
  end.

Definition truncated_mark : str := lit "... [truncated]".

(** [(raw[:limit] + "... [truncated]") if len(raw) > limit else raw] *)
Definition snippet (limit : Z) (raw : str) : str :=
  if (limit <? Z.of_nat (length raw))%Z
  then slice_to limit raw ++ truncated_mark
  else raw.

(** The lines one source adds. *)
Definition source_lines (max_tokens_per_source : Z) (include_raw_content : bool)
    (src : hit) : result (list str) :=
  match hit_title src with
  | None => Raise (lit "'title'")
  | Some title =>
      match hit_url src with
      | None => Raise (lit "'url'")
      | Some url =>
          match hit_content src with
          | None => Raise (lit "'content'")
          | Some content =>
              let first :=
                [ lit "Source " ++ title ++ lit ":" ++ nl ++ lit "===";
                  lit "URL: " ++ url ++ nl ++ lit "===";
                  lit "Most relevant content: " ++ content ++ nl ++ lit "===" ] in
              let full :=
                match hit_raw_content src with
                | Some (c :: s) =>
                    if include_raw_content then
                      let raw := c :: s in
                      let limit := (max_tokens_per_source * 4)%Z in
                      [ lit "Full source content (" ++ [8804%N] ++
                        str_of_int max_tokens_per_source ++ lit " tokens" ++
                        [8776%N] ++ str_of_int limit ++ lit " chars): " ++
                        snippet limit raw ++ nl ]
                    else []
                | _ => []
                end in
              Ok (first ++ full ++ [[]])
          end
      end
  end.

(** The loop over [unique.values()]. *)
Fixpoint format_loop (max_tokens_per_source : Z) (include_raw_content : bool)
    (sources : list hit) (lines : list str) : result (list str) :=
  match sources with
  | [] => Ok lines
  | src :: rest =>
      match source_lines max_tokens_per_source include_raw_content src with
      | Ok new => format_loop max_tokens_per_source include_raw_content rest
                    (lines ++ new)
      | Raise e => Raise e
      end
  end.

Definition not_a_response : str :=
  lit "search_response precisa ser dict{'results':" ++ [8230%N] ++
  lit "} ou list de resultados.".

(** [deduplicate_and_format_sources] *)
Definition deduplicate_and_format_sources (search_response : search_response)
    (max_tokens_per_source : Z) (include_raw_content : bool) : result str :=
  match
    match search_response with
    | a_dict resp => Ok (get_results resp)
    | a_list resps => Ok (flat_map get_results resps)
    | another_value => Raise not_a_response
    end
  with
  | Raise e => Raise e
  | Ok sources_list =>
      match by_url sources_list [] with
      | Raise e => Raise e
      | Ok unique =>
          match format_loop max_tokens_per_source include_raw_content
                  (unique.*2) [lit "Sources:" ++ nl] with
          | Raise e => Raise e
          | Ok lines => Ok (strip (join nl lines))
          end
      end
  end.

(** One bullet of [format_sources]. *)
Definition bullet (src : hit) : result str :=
  match hit_title src with
  | None => Raise (lit "'title'")
  | Some title =>
      match hit_url src with
      | None => Raise (lit "'url'")
      | Some url => Ok (lit "* " ++ title ++ lit " : " ++ url)
      end
  end.

(** The generator of [format_sources], consumed by [join]. *)
Fixpoint bullets (sources : list hit) : result (list str) :=
  match sources with
  | [] => Ok []
  | src :: rest =>
      match bullet src with
      | Raise e => Raise e
      | Ok b =>
          match bullets rest with
          | Raise e => Raise e
          | Ok bs => Ok (b :: bs)
          end
      end
  end.

(** [format_sources]: [search_results["results"]] must be there. *)
Definition format_sources (search_results : response) : result str :=
  match results search_results with
  | None => Raise (lit "'results'")
  | Some sources =>
      match bullets sources with
      | Raise e => Raise e
      | Ok bs => Ok (join nl bs)
      end
  end.

End Utils.

(* ===================================================================== *)
(** ** utils.py: the Perplexity search provider                          *)
(* ===================================================================== *)

Module UtilsSearch.

(** What [perplexity_search] posts: the bearer token of the headers and
    the payload (the model, the system message, the user message). *)
Record request := mkRequest {
  authorization : str;
  payload_model : str;
  system_content : str;
  user_content : str
}.

(** The JSON body of the answer, as far as the function reads it; every
    key may be missing. *)
Record message := mkMessage { message_content : option str }.
Record choice := mkChoice { choice_message : option message }.
Record completion := mkCompletion {
  choices : option (list choice);
  citations : option (list str)
}.

Definition key_missing : str :=
  lit "PERPLEXITY_API_KEY n" ++ [227%N] ++ lit "o definida no ambiente.".

Definition index_error : str := lit "list index out of range".

(** [data["choices"][0]["message"]["content"]] *)
Definition answer_of (data : completion) : result str :=
  match choices data with
  | None => Raise (lit "'choices'")
  | Some [] => Raise index_error
  | Some (c :: _) =>
      match choice_message c with
      | None => Raise (lit "'message'")
      | Some m =>
          match message_content m with
          | None => Raise (lit "'content'")
          | Some content => Ok content
          end
      end
  end.

(** [f"Perplexity Search {perplexity_search_loop_count+1}, Source {i}"] *)
Definition source_title (perplexity_search_loop_count : Z) (i : nat) : str :=
  lit "Perplexity Search " ++
  Utils.str_of_int (perplexity_search_loop_count + 1) ++
  lit ", Source " ++ str_of_nat i.

(** [perplexity_search]: [api_key] is what [os.getenv] gives, [post] is the
    HTTP exchange ([requests.post], [raise_for_status], [json]). *)
Definition perplexity_search (api_key : option str)
    (post : request -> result completion)
    (query model : str) (perplexity_search_loop_count : Z) : result response :=
  match api_key with
  | None | Some [] => Raise key_missing
  | Some (c :: s) =>
      let api_key := c :: s in
      match post {| authorization := lit "Bearer " ++ api_key;
                    payload_model := model;
                    system_content :=
                      lit "Search the web and provide factual information with sources.";
                    user_content := query |} with
      | Raise e => Raise e
      | Ok data =>
          match answer_of data with
          | Raise e => Raise e
          | Ok content =>
              let citations :=
                default [lit "https://perplexity.ai"] (citations data) in
              match citations with
              | [] => Raise index_error
              | first :: _ =>
                  let results :=
                    [ {| hit_title :=
                           Some (source_title perplexity_search_loop_count 1);
                         hit_url := Some first;
                         hit_content := Some content;
                         hit_raw_content := Some content |} ] in
                  let results :=
                    results ++
                    List.map
                      (fun '(i, cit) =>
                         {| hit_title :=
                              Some (source_title perplexity_search_loop_count i);
                            hit_url := Some cit;
                            hit_content := Some (lit "See above.");
                            hit_raw_content := None |})
                      (enumerate 2 (tail citations)) in
                  Ok (mkResponse (Some results))
              end
          end
      end
  end.

End UtilsSearch.

(** Three sources, the first and the last with the same URL. *)
Module UtilsScenarios.

Definition old_page : hit :=
  mkHit (Some (lit "Old title")) (Some (lit "https://a.example"))
        (Some (lit "old snippet")) None.
Definition other_page : hit :=
  mkHit (Some (lit "Other")) (Some (lit "https://b.example"))
        (Some (lit "other snippet")) (Some (lit "0123456789")).
Definition new_page : hit :=
  mkHit (Some (lit "New title")) (Some (lit "https://a.example"))
        (Some (lit "new snippet")) None.
(** A source without title, which [new_page] shadows. *)
Definition untitled_page : hit :=
  mkHit None (Some (lit "https://a.example")) (Some (lit "old snippet")) None.

Definition three_sources : list hit := [old_page; other_page; new_page].

(** An exchange with the Perplexity API that answers with two citations. *)
Definition two_citations (r : UtilsSearch.request)
  : result UtilsSearch.completion :=
  Ok {| UtilsSearch.choices :=
          Some [UtilsSearch.mkChoice
                  (Some (UtilsSearch.mkMessage (Some (lit "the answer"))))];
        UtilsSearch.citations :=
          Some [lit "https://a.example"; lit "https://b.example"] |}.

End UtilsScenarios.

(* ===================================================================== *)
(** ** Scenarios: concrete collaborators and states                      *)
(* ===================================================================== *)

Module Scenarios.

(** [str.lower] on ASCII text. *)
Definition ascii_lower (s : str) : str :=
  List.map (fun c => if ((65 <=? c) && (c <=? 90))%N then (c + 32)%N else c) s.

(** Collaborators that replay a script: each call is answered by the next
    event of the script when it is of the call's kind. *)
Definition scripted : collaborators (list event) :=
  {| search_provider := fun q n raw w =>
       match w with
       | EvSearch _ _ _ r :: w' => (r, w')
       | _ => (Raise [], w)
       end;
     structured_model := fun m s w =>
       match w with
       | EvStructured _ _ r :: w' => (r, w')
       | _ => (Raise [], w)
       end;
     chat_model := fun m s w =>
       match w with
       | EvInvoke _ _ r :: w' => (r, w')
       | _ => (Raise [], w)
       end |}.

Definition a_hit : hit :=
  mkHit (Some (lit "Photosynthesis")) (Some (lit "https://example.org/p"))
        (Some (lit "short snippet")) (Some (lit "long raw content")).

Definition one_hit : response := mkResponse (Some [a_hit]).
Definition no_hit : response := mkResponse (Some []).

Definition a_result : QueryResult :=
  mkQueryResult (lit "Photosynthesis") (lit "https://example.org/p")
                (lit "a summary").

Definition timeout_error : str := lit "timed out".

(** A search provider that finds one hit and chat models that answer
    with blank text. *)
Definition blank_models : collaborators unit :=
  {| search_provider := fun q n raw w => (Ok one_hit, w);
     structured_model := fun m s w => (Ok [], w);
     chat_model := fun m s w => (Ok (lit "  "), w) |}.

(** A search provider that fails on the query [first] and finds one hit
    for any other query; chat models that answer [a summary]. *)
Definition first_fails : collaborators unit :=
  {| search_provider := fun q n raw w =>
       (if bool_decide (q = lit "first") then Raise timeout_error
        else Ok one_hit, w);
     structured_model := fun m s w => (Ok [lit "first"; lit "second"], w);
     chat_model := fun m s w => (Ok (lit "a summary"), w) |}.

(** A search provider that finds one hit and chat models that time out. *)
Definition failing_models : collaborators unit :=
  {| search_provider := fun q n raw w => (Ok one_hit, w);
     structured_model := fun m s w => (Raise timeout_error, w);
     chat_model := fun m s w => (Raise timeout_error, w) |}.

(** A planner that extracts the same query six times. *)
Definition repeating_planner : collaborators unit :=
  {| search_provider := fun q n raw w => (Ok no_hit, w);
     structured_model := fun m s w => (Ok (replicate 6 (lit "llm")), w);
     chat_model := fun m s w => (Ok (lit "an answer"), w) |}.

(** A planner that repeats itself within the promised number of queries:
    the structured model extracts the same query three times, the chat
    model answers with the same line twice. *)
Definition duplicating_planner : collaborators unit :=
  {| search_provider := fun q n raw w => (Ok no_hit, w);
     structured_model := fun m s w => (Ok [lit "llm"; lit "llm"; lit "llm"], w);
     chat_model := fun m s w =>
       (Ok (lit "llm basics" ++ nl ++ lit "llm basics"), w) |}.

(** Chat models that answer [an answer] and a search that finds one hit. *)
Definition answering_models : collaborators unit :=
  {| search_provider := fun q n raw w => (Ok one_hit, w);
     structured_model := fun m s w => (Ok [lit "first"; lit "second"], w);
     chat_model := fun m s w => (Ok (lit "an answer"), w) |}.

Definition question : str := lit "What is photosynthesis?".

(** The state after planning [first] and [second]. *)
Definition planned : ReportState :=
  {| user_input := question; queries := [lit "first"; lit "second"];
     queries_results := []; final_response := [] |}.

(** The state after one successful search. *)
Definition searched : ReportState :=
  {| user_input := question; queries := [lit "first"; lit "second"];
     queries_results := [a_result]; final_response := [] |}.

End Scenarios.

(* ===================================================================== *)
(** ** Notions used to state the properties                              *)
(* ===================================================================== *)

(** The characters of a decimal number. *)
Definition is_digit (c : char) : Prop := (48 <= c <= 57)%N.

(** [t] occurs in [s] as a contiguous piece. *)
Definition substring_of (t s : str) : Prop :=
  exists before after, s = before ++ t ++ after.

(* ===================================================================== *)
(** ** Runs of a node                                                    *)
(* ===================================================================== *)

Section Runs.

Context {A B : Type}.

Lemma returns_bind (p : prog A) (f : A -> prog B) tr1 a tr2 b :
  returns p tr1 a -> returns (f a) tr2 b -> returns (p ≫= f) (tr1 ++ tr2) b.
Proof.
  induction 1; intros Hf; simpl; try (constructor; auto); exact Hf.
Qed.

Lemma returns_bind_inv (p : prog A) (f : A -> prog B) tr b :
  returns (p ≫= f) tr b ->
  exists tr1 a tr2, tr = tr1 ++ tr2 /\ returns p tr1 a /\ returns (f a) tr2 b.
Proof.
  revert tr. induction p as [a|q n raw k IH|m s k IH|m s k IH]; intros tr H.
  - exists [], a, tr. split; [reflexivity|]. split; [constructor | exact H].
  - inversion H; subst.
    destruct (IH _ _ H6) as (tr1 & a & tr2 & -> & Hp & Hf).
    exists (EvSearch q n raw r :: tr1), a, tr2.
    split; [reflexivity|]. split; [constructor; exact Hp | exact Hf].
  - inversion H; subst.
    destruct (IH _ _ H5) as (tr1 & a & tr2 & -> & Hp & Hf).
    exists (EvStructured m s r :: tr1), a, tr2.
    split; [reflexivity|]. split; [constructor; exact Hp | exact Hf].
  - inversion H; subst.
    destruct (IH _ _ H5) as (tr1 & a & tr2 & -> & Hp & Hf).
    exists (EvInvoke m s r :: tr1), a, tr2.
    split; [reflexivity|]. split; [constructor; exact Hp | exact Hf].
Qed.

End Runs.

(** Whatever the collaborators are, a node runs to a value, and that run
    is one of those [returns] describes. *)
Lemma exec_returns {W A : Type} (c : collaborators W) (p : prog A) (w : W) :
  returns p (calls_of (exec c p w)) (value_of (exec c p w)).
Proof.
  revert w. induction p as [a|q n raw k IH|m s k IH|m s k IH]; intros w; simpl.
  - constructor.
  - destruct (search_provider c q n raw w) as [r w1].
    specialize (IH r w1). destruct (exec c (k r) w1) as [[a tr] w2].
    constructor. exact IH.
  - destruct (structured_model c m s w) as [r w1].
    specialize (IH r w1). destruct (exec c (k r) w1) as [[a tr] w2].
    constructor. exact IH.
  - destruct (chat_model c m s w) as [r w1].
    specialize (IH r w1). destruct (exec c (k r) w1) as [[a tr] w2].
    constructor. exact IH.
Qed.

(** Conversely every run [returns] describes happens against some
    collaborators: the ones that replay its events. *)
Lemma returns_scripted {A : Type} (p : prog A) tr a rest :
  returns p tr a -> exec Scenarios.scripted p (tr ++ rest) = (a, tr, rest).
Proof.
  induction 1; simpl; try rewrite IHreturns; reflexivity.
Qed.

(** Inversion of a run, one collaborator call at a time. *)
Lemma returns_Ret_inv {A : Type} (a b : A) tr :
  returns (Ret a) tr b -> tr = [] /\ b = a.
Proof. inversion 1; subst; split; reflexivity. Qed.

Lemma returns_search_inv {A : Type} q n raw (k : result response -> prog A) tr a :
  returns (tavily_search q n raw k) tr a ->
  exists r tr', tr = EvSearch q n raw r :: tr' /\ returns (k r) tr' a.
Proof. inversion 1; subst; eauto. Qed.

Lemma returns_structured_inv {A : Type} m s (k : result (list str) -> prog A) tr a :
  returns (with_structured_output m s k) tr a ->
  exists r tr', tr = EvStructured m s r :: tr' /\ returns (k r) tr' a.
Proof. inversion 1; subst; eauto. Qed.

Lemma returns_invoke_inv {A : Type} m s (k : result str -> prog A) tr a :
  returns (invoke m s k) tr a ->
  exists r tr', tr = EvInvoke m s r :: tr' /\ returns (k r) tr' a.
Proof. inversion 1; subst; eauto. Qed.

Ltac prog_simpl :=
  unfold try_except, bind_ok, call_search, call_structured, call_invoke,
    getitem in *;
  unfold mret, prog_mret in *;
  cbn [mbind prog_mbind prog_bind] in *.

Ltac step_run :=
  match goal with
  | H : returns (Ret _) _ _ |- _ =>
      apply returns_Ret_inv in H as [-> ?]; subst
  | H : returns (tavily_search _ _ _ _) _ _ |- _ =>
      let r := fresh "ans" in let tr := fresh "tr" in
      apply returns_search_inv in H as (r & tr & -> & H)
  | H : returns (with_structured_output _ _ _) _ _ |- _ =>
      let r := fresh "ans" in let tr := fresh "tr" in
      apply returns_structured_inv in H as (r & tr & -> & H)
  | H : returns (invoke _ _ _) _ _ |- _ =>
      let r := fresh "ans" in let tr := fresh "tr" in
      apply returns_invoke_inv in H as (r & tr & -> & H)
  | H : returns ?p _ _ |- _ =>
      match p with
      | context [match ?r with Ok _ => _ | Raise _ => _ end] =>
          is_var r; destruct r
      end
  end.

Ltac run_inv := repeat (first [step_run | progress prog_simpl]).

(* ===================================================================== *)
(** ** perplexity.py: what the nodes do in every run                     *)
(* ===================================================================== *)

Lemma build_first_queries_runs st tr u :
  returns (Perplexity.build_first_queries st) tr u ->
  exists r,
    tr = [EvStructured planner_llm (Prompts.build_queries (user_input st)) r] /\
    u = {[ "queries" :=
             VQueries (match r with Ok l => l | Raise _ => [user_input st] end) ]}.
Proof.
  unfold Perplexity.build_first_queries. intros H. run_inv.
  all: eexists; split; reflexivity.
Qed.


(** The outcome of every turn: at most one search and one summary. *)
Lemma serial_search_query_calls st q tr o :
  returns (Perplexity.serial_search_query st q) tr o ->
  exists ans rest, tr = EvSearch q 1 true ans :: rest /\
    (forall e, ans = Raise e -> rest = [] /\ o = None) /\
    (forall resp, ans = Ok resp ->
       results resp = None \/ results resp = Some [] -> rest = [] /\ o = None).
Proof.
  unfold Perplexity.serial_search_query, Perplexity.serial_search_body.
  intros H. run_inv.
  - exists (Ok a). eexists. split; [reflexivity|]. split; [discriminate|].
    intros resp [= <-] Hres.
    destruct a as [res]; cbn [results] in *.
    destruct Hres as [-> | ->]; run_inv; split; congruence.
  - eexists (Raise e), []. split; [reflexivity|]. split.
    + intros; split; reflexivity.
    + discriminate.
Qed.

Lemma serial_search_loop_runs st qs acc tr rs :
  returns (Perplexity.serial_search_loop st qs acc) tr rs ->
  exists outs : list (list event * option QueryResult),
    Forall2 (fun q o => returns (Perplexity.serial_search_query st q) o.1 o.2)
      qs outs /\
    tr = concat (outs.*1) /\
    rs = acc ++ omap snd outs.
Proof.
  revert acc tr. induction qs as [|q qs IH]; intros acc tr H;
    cbn [Perplexity.serial_search_loop] in H.
  - run_inv. exists []. split; [constructor|]. split; [reflexivity|].
    simpl. rewrite app_nil_r. reflexivity.
  - apply returns_bind_inv in H as (tr1 & o & tr2 & -> & Hq & Hrest).
    apply IH in Hrest as (outs & Hall & -> & ->).
    exists ((tr1, o) :: outs). split; [constructor; assumption|].
    split; [reflexivity|].
    destruct o as [qr|]; simpl; [rewrite <- app_assoc|]; reflexivity.
Qed.


(** perplexity.py: whatever fails, the search loop makes a turn for every
    planned query, in order, and each turn begins with the search for its
    query. *)
Lemma serial_search_searches_every_query st qs acc tr rs :
  returns (Perplexity.serial_search_loop st qs acc) tr rs ->
  exists turns : list (list event),
    tr = concat turns /\
    Forall2 (fun q turn => exists ans rest, turn = EvSearch q 1 true ans :: rest)
            qs turns.
Proof.
  intros H. apply serial_search_loop_runs in H as (outs & Hall & -> & _).
  exists (outs.*1). split; [reflexivity|].
  induction Hall as [|q o qs outs Hq _ IH]; [constructor|].
  constructor; [|exact IH].
  apply serial_search_query_calls in Hq as (ans & rest & -> & _).
  eauto.
Qed.

Lemma serial_search_update st tr u :
  returns (Perplexity.serial_search st) tr u ->
  exists rs, u = {[ "queries_results" := VResults rs ]}.
Proof.
  unfold Perplexity.serial_search. intros H.
  apply returns_bind_inv in H as (tr1 & rs & tr2 & _ & _ & Hret).
  apply returns_Ret_inv in Hret as [_ ->]. eauto.
Qed.

Lemma enumerate_lookup {A : Type} (l : list A) start n :
  enumerate start l !! n = (fun x => (start + n, x)) <$> l !! n.
Proof.
  revert start n. induction l as [|x l IH]; intros start [|n]; simpl;
    try reflexivity.
  - rewrite Nat.add_0_r. reflexivity.
  - rewrite IH. replace (S start + n) with (start + S n) by lia. reflexivity.
Qed.

Lemma enumerate_map_lookup {A B : Type} (f : nat -> A -> B) (l : list A) n :
  List.map (fun '(i, x) => f i x) (enumerate 1 l) !! n = f (S n) <$> l !! n.
Proof.
  change (List.map (fun '(i, x) => f i x) (enumerate 1 l))
    with ((fun '(i, x) => f i x) <$> enumerate 1 l).
  rewrite list_lookup_fmap, enumerate_lookup.
  destruct (l !! n); reflexivity.
Qed.

Lemma enumerate_map_length {A B : Type} (f : nat * A -> B) (l : list A) start :
  length (List.map f (enumerate start l)) = length l.
Proof.
  rewrite length_map. revert start.
  induction l as [|x l IH]; intros start; simpl; [|rewrite IH]; reflexivity.
Qed.

Lemma final_writer_runs st tr u :
  queries_results st <> [] ->
  returns (Perplexity.final_writer st) tr u ->
  exists ans,
    tr = [ EvInvoke reasoning_llm
             (Prompts.build_final_response (user_input st)
                (join [] (Perplexity.body_parts (queries_results st))))
             ans ] /\
    u = {[ "final_response" :=
             VStr (match ans with
                   | Ok final_text =>
                       (final_text ++ Perplexity.references_heading) ++
                       join nl (Perplexity.ref_parts (queries_results st))
                   | Raise e => Perplexity.error_prefix ++ e
                   end) ]}.
Proof.
  unfold Perplexity.final_writer. intros Hne H.
  destruct (queries_results st) as [|qr rs]; [congruence|].
  run_inv; eexists; split; reflexivity.
Qed.

Lemma final_writer_empty st :
  queries_results st = [] ->
  Perplexity.final_writer st =
  Ret {[ "final_response" := VStr Perplexity.no_information ]}.
Proof. unfold Perplexity.final_writer. intros ->. reflexivity. Qed.

(** The final synthesizer of perplexity.py never answers with the empty
    string. *)
Lemma final_writer_nonempty st tr u :
  returns (Perplexity.final_writer st) tr u ->
  exists s, u = {[ "final_response" := VStr s ]} /\ s <> [].
Proof.
  intros H. destruct (queries_results st) as [|qr rs] eqn:Hrs.
  - rewrite (final_writer_empty st Hrs) in H.
    apply returns_Ret_inv in H as [_ ->].
    eexists. split; [reflexivity | discriminate].
  - apply final_writer_runs in H as (ans & _ & ->); [|congruence].
    eexists. split; [reflexivity|]. destruct ans as [final_text|e].
    + intros H. apply (f_equal length) in H.
      rewrite !length_app in H.
      change (length Perplexity.references_heading) with 14 in H.
      simpl in H. lia.
    + discriminate.
Qed.

Lemma graph_invoke_runs st0 tr st3 :
  returns (Perplexity.graph_invoke st0) tr st3 ->
  exists tr1 u1 tr2 u2 tr3 u3,
    tr = tr1 ++ tr2 ++ tr3 /\
    returns (Perplexity.build_first_queries st0) tr1 u1 /\
    returns (Perplexity.serial_search (merge st0 u1)) tr2 u2 /\
    returns (Perplexity.final_writer (merge (merge st0 u1) u2)) tr3 u3 /\
    st3 = merge (merge (merge st0 u1) u2) u3.
Proof.
  unfold Perplexity.graph_invoke. intros H.
  apply returns_bind_inv in H as (tr1 & u1 & tr' & -> & H1 & H).
  apply returns_bind_inv in H as (tr2 & u2 & tr'' & -> & H2 & H).
  apply returns_bind_inv in H as (tr3 & u3 & tr''' & -> & H3 & H).
  apply returns_Ret_inv in H as [-> ->]. rewrite app_nil_r.
  exists tr1, u1, tr2, u2, tr3, u3. repeat split; assumption.
Qed.

(* ===================================================================== *)
(** ** perplexity_optimized.py: what the nodes do in every run           *)
(* ===================================================================== *)

Section OptimizedRuns.

Variable lower : str -> str.

Lemma take_3_bounds (l : list str) :
  l <> [] -> 1 <= length (take 3 l) <= 3.
Proof.
  intros Hne. rewrite length_take.
  destruct l as [|x l]; [congruence|]. cbn [length]. lia.
Qed.

Lemma generate_queries_runs st tr u :
  returns (PerplexityOptimized.generate_queries lower st) tr u ->
  exists ans qs,
    tr = [ EvInvoke get_llm
             (PerplexityOptimized.QUERY_PROMPT (user_input st)) ans ] /\
    u = {[ "queries" := VQueries qs ]} /\
    1 <= length qs <= 3 /\
    (forall e, ans = Raise e ->
       qs = [ lower (user_input st);
              lit "what is " ++ lower (user_input st) ]) /\
    (forall response, ans = Ok response ->
       let queries :=
         PerplexityOptimized.parse_lines (split 10%N (strip response)) [] in
       qs = take 3
              (match queries with
               | [] => [ lower (user_input st) ++ lit " explained";
                         lit "what is " ++ lower (user_input st);
                         lit "how does " ++ lower (user_input st) ++
                           lit " work" ]
               | _ => queries
               end)).
Proof.
  unfold PerplexityOptimized.generate_queries. intros H. run_inv.
  - eexists (Ok a), _. split; [reflexivity|]. split; [reflexivity|].
    split; [|split; [discriminate | intros ? [= <-]; reflexivity]].
    apply take_3_bounds.
    destruct (PerplexityOptimized.parse_lines _ _); discriminate.
  - eexists (Raise e), _. split; [reflexivity|]. split; [reflexivity|].
    split; [simpl; lia|]. split; [reflexivity | discriminate].
Qed.

Lemma execute_search_loop_runs qs acc tr rs out :
  returns (PerplexityOptimized.execute_search_loop qs acc) tr (rs, out) ->
  exists hits : list hit,
    rs = acc ++ List.map PerplexityOptimized.query_result_of hits /\
    Forall (fun r => exists q rest,
              In q qs /\
              In (EvSearch q 1 true (Ok (mkResponse (Some (r :: rest))))) tr)
           hits /\
    Forall (fun ev => exists q ans, ev = EvSearch q 1 true ans) tr.
Proof.
  revert acc tr. induction qs as [|q qs IH]; intros acc tr H;
    cbn [PerplexityOptimized.execute_search_loop] in H; run_inv.
  - match goal with H : (_, _) = (_, _) |- _ => inversion H; subst; clear H end.
    exists []. simpl. rewrite app_nil_r. repeat split; constructor.
  - destruct a as [[[|r rest]|]]; cbn [results] in H;
      apply IH in H as (hits & -> & Hhits & Hev).
    + exists hits. split; [reflexivity|]. split.
      * eapply Forall_impl; [exact Hhits|].
        intros r (q' & rest & Hq & Hin). exists q', rest.
        split; right; assumption.
      * constructor; [eauto | exact Hev].
    + exists (r :: hits). split; [rewrite <- app_assoc; reflexivity|]. split.
      * constructor.
        -- exists q, rest. split; left; reflexivity.
        -- eapply Forall_impl; [exact Hhits|].
           intros r' (q' & rest' & Hq & Hin). exists q', rest'.
           split; right; assumption.
      * constructor; [eauto | exact Hev].
    + exists hits. split; [reflexivity|]. split.
      * eapply Forall_impl; [exact Hhits|].
        intros r (q' & rest & Hq & Hin). exists q', rest.
        split; right; assumption.
      * constructor; [eauto | exact Hev].
  - match goal with H : (_, _) = (_, _) |- _ => inversion H; subst; clear H end.
    exists []. simpl. rewrite app_nil_r. split; [reflexivity|].
    split; constructor; [eauto | constructor].
Qed.

Lemma query_result_of_resume (r : hit) :
  resume (PerplexityOptimized.query_result_of r) =
  take 1000 (PerplexityOptimized.selected_content r).
Proof.
  unfold PerplexityOptimized.query_result_of. cbn [resume].
  destruct (PerplexityOptimized.selected_content r); reflexivity.
Qed.

(** perplexity_optimized.py: a search that raises is the last call of the
    search stage. *)
Lemma execute_search_raise_ends_loop qs acc tr rs out i q e :
  returns (PerplexityOptimized.execute_search_loop qs acc) tr (rs, out) ->
  tr !! i = Some (EvSearch q 1 true (Raise e)) ->
  length tr = S i.
Proof.
  revert acc tr i. induction qs as [|q0 qs IH]; intros acc tr i H Hi;
    cbn [PerplexityOptimized.execute_search_loop] in H; run_inv.
  - discriminate.
  - destruct i as [|i]; [discriminate|].
    cbn [length]. f_equal. eapply IH; [exact H | exact Hi].
  - destruct i as [|i]; [reflexivity | discriminate].
Qed.

Lemma execute_search_update st tr u :
  returns (PerplexityOptimized.execute_search st) tr u ->
  exists rs, u = {[ "queries_results" := VResults rs ]}.
Proof.
  unfold PerplexityOptimized.execute_search. intros H.
  apply returns_bind_inv in H as (tr1 & [rs out] & tr2 & _ & _ & Hret).
  apply returns_Ret_inv in Hret as [_ ->]. eauto.
Qed.

Lemma write_response_runs st tr u :
  queries_results st <> [] ->
  returns (PerplexityOptimized.write_response st) tr u ->
  exists ans,
    tr = [ EvInvoke get_llm
             (PerplexityOptimized.FINAL_PROMPT (user_input st)
                (join (nl ++ nl)
                   (PerplexityOptimized.search_context (queries_results st))))
             ans ] /\
    u = {[ "final_response" :=
             VStr (match ans with
                   | Ok response => strip response
                   | Raise e => PerplexityOptimized.error_prefix ++ e
                   end) ]}.
Proof.
  unfold PerplexityOptimized.write_response. intros Hne H.
  destruct (queries_results st) as [|qr rs]; [congruence|].
  run_inv; eexists; split; reflexivity.
Qed.

Lemma write_response_empty st :
  queries_results st = [] ->
  PerplexityOptimized.write_response st =
  Ret {[ "final_response" := VStr PerplexityOptimized.no_information ]}.
Proof. unfold PerplexityOptimized.write_response. intros ->. reflexivity. Qed.

(** The final synthesizer of perplexity_optimized.py answers with the
    empty string only when its model returned blank text. *)
Lemma write_response_outcome st tr u :
  returns (PerplexityOptimized.write_response st) tr u ->
  exists s, u = {[ "final_response" := VStr s ]} /\
    (s <> [] \/
     exists prompt response,
       tr = [EvInvoke get_llm prompt (Ok response)] /\ strip response = []).
Proof.
  intros H. destruct (queries_results st) as [|qr rs] eqn:Hrs.
  - rewrite (write_response_empty st Hrs) in H.
    apply returns_Ret_inv in H as [_ ->].
    eexists. split; [reflexivity|]. left. discriminate.
  - apply write_response_runs in H as (ans & -> & ->); [|congruence].
    eexists. split; [reflexivity|]. destruct ans as [response|e].
    + destruct (strip response) as [|ch s] eqn:Hstrip.
      * right. eauto.
      * left. discriminate.
    + left. discriminate.
Qed.

Lemma optimized_graph_invoke_runs st0 tr st3 :
  returns (PerplexityOptimized.graph_invoke lower st0) tr st3 ->
  exists tr1 u1 tr2 u2 tr3 u3,
    tr = tr1 ++ tr2 ++ tr3 /\
    returns (PerplexityOptimized.generate_queries lower st0) tr1 u1 /\
    returns (PerplexityOptimized.execute_search (merge st0 u1)) tr2 u2 /\
    returns (PerplexityOptimized.write_response (merge (merge st0 u1) u2)) tr3 u3 /\
    st3 = merge (merge (merge st0 u1) u2) u3.
Proof.
  unfold PerplexityOptimized.graph_invoke. intros H.
  apply returns_bind_inv in H as (tr1 & u1 & tr' & -> & H1 & H).
  apply returns_bind_inv in H as (tr2 & u2 & tr'' & -> & H2 & H).
  apply returns_bind_inv in H as (tr3 & u3 & tr''' & -> & H3 & H).
  apply returns_Ret_inv in H as [-> ->]. rewrite app_nil_r.
  exists tr1, u1, tr2, u2, tr3, u3. repeat split; assumption.
Qed.

End OptimizedRuns.

(* ===================================================================== *)
(** ** The graph's update of the state                                   *)
(* ===================================================================== *)

Lemma merge_queries st l :
  merge st {[ "queries" := VQueries l ]} =
  {| user_input := user_input st; queries := l;
     queries_results := queries_results st;
     final_response := final_response st |}.
Proof. reflexivity. Qed.

Lemma merge_queries_results st l :
  merge st {[ "queries_results" := VResults l ]} =
  {| user_input := user_input st; queries := queries st;
     queries_results := l; final_response := final_response st |}.
Proof. reflexivity. Qed.

Lemma merge_final_response st s :
  merge st {[ "final_response" := VStr s ]} =
  {| user_input := user_input st; queries := queries st;
     queries_results := queries_results st; final_response := s |}.
Proof. reflexivity. Qed.

Lemma app_length_ne (a b : str) : length a <> length b -> a <> b.
Proof. congruence. Qed.

(* ===================================================================== *)
(** ** The properties of the pipeline                                    *)
(* ===================================================================== *)

(** C1, as stated, fails for the optimized variant: when the model answers
    with blank text, the run of a non-empty question ends with the empty
    string as [final_response]. *)
Lemma C1_counterexample :
  Scenarios.question <> [] /\
  value_of (exec Scenarios.blank_models
              (PerplexityOptimized.run Scenarios.ascii_lower Scenarios.question)
              tt) = [].
Proof. split; [discriminate | vm_compute; reflexivity]. Qed.

(** C1, amended. Whatever the collaborators do, raising included, a run of
    the pipeline on any question returns a string. In perplexity.py that
    string is never empty. In perplexity_optimized.py it is empty only when
    the last call of the run is the long-form model returning a text that
    is empty once stripped of white space. *)
Theorem C1_run_always_answers
    (lower : str -> str) {W : Type} (c : collaborators W) (w : W)
    (question : str) :
  value_of (exec c (Perplexity.run question) w) <> [] /\
  (let run := exec c (PerplexityOptimized.run lower question) w in
   value_of run <> [] \/
   exists prompt response,
     last (calls_of run) = Some (EvInvoke get_llm prompt (Ok response)) /\
     strip response = []).
Proof.
  split; [|intros run].
  - pose proof (exec_returns c (Perplexity.run question) w) as Hrun.
    unfold Perplexity.run in Hrun at 1.
    apply returns_bind_inv in Hrun as (tr & st & tr' & _ & Hgraph & Hret).
    apply returns_Ret_inv in Hret as [_ ->].
    apply graph_invoke_runs in Hgraph
      as (tr1 & u1 & tr2 & u2 & tr3 & u3 & _ & _ & _ & H3 & ->).
    apply final_writer_nonempty in H3 as (s & -> & Hs). exact Hs.
  - pose proof (exec_returns c (PerplexityOptimized.run lower question) w) as Hrun.
    fold run in Hrun. unfold PerplexityOptimized.run in Hrun at 1.
    apply returns_bind_inv in Hrun as (tr & st & tr' & Htr & Hgraph & Hret).
    apply returns_Ret_inv in Hret as [-> Hv]. rewrite app_nil_r in Htr.
    apply optimized_graph_invoke_runs in Hgraph
      as (tr1 & u1 & tr2 & u2 & tr3 & u3 & -> & _ & _ & H3 & ->).
    apply write_response_outcome in H3 as (s & -> & [Hs | Hblank]).
    + left. rewrite Hv. exact Hs.
    + right. destruct Hblank as (prompt & response & -> & Hstrip).
      exists prompt, response. split; [|exact Hstrip].
      rewrite Htr, !app_assoc. apply last_snoc.
Qed.

(** C2 (the optimized variant). The [try] of [execute_search] encloses the
    whole loop. With the planned queries [first] and [second], a search
    that times out on [first] ends the loop: [second] is never searched
    and nothing is collected. On the same input [serial_search], whose
    [try] is inside the loop, goes on to [second] and collects its result. *)
Theorem C2_optimized_search_stops_at_first_failure :
  exec Scenarios.first_fails
       (PerplexityOptimized.execute_search Scenarios.planned) tt =
    ({[ "queries_results" := VResults [] ]},
     [EvSearch (lit "first") 1 true (Raise Scenarios.timeout_error)], tt) /\
  value_of (exec Scenarios.first_fails
              (Perplexity.serial_search Scenarios.planned) tt) =
    {[ "queries_results" := VResults [Scenarios.a_result] ]}.
Proof. split; vm_compute; reflexivity. Qed.

(** C3, as stated, fails for the optimized variant: when its model times
    out, [generate_queries] plans two queries built from the lower-cased
    question, not the question alone. *)
Lemma C3_counterexample :
  let st := initial_state Scenarios.question in
  let run := exec Scenarios.failing_models
               (PerplexityOptimized.generate_queries Scenarios.ascii_lower st) tt in
  calls_of run =
    [ EvInvoke get_llm (PerplexityOptimized.QUERY_PROMPT Scenarios.question)
        (Raise Scenarios.timeout_error) ] /\
  queries (merge st (value_of run)) =
    [ lit "what is photosynthesis?"; lit "what is what is photosynthesis?" ] /\
  queries (merge st (value_of run)) <> [user_input st].
Proof. repeat split. vm_compute. discriminate. Qed.

(** C3, amended. When the planner's model call raises, the planner still
    returns. In perplexity.py the planned queries are exactly the question
    alone; in perplexity_optimized.py they are the lower-cased question
    followed by [what is] and the lower-cased question. *)
Theorem C3_planner_fallback
    (lower : str -> str) {W : Type} (c : collaborators W) (w : W)
    (st : ReportState) (m : model) (prompt e : str) :
  (In (EvStructured m prompt (Raise e))
      (calls_of (exec c (Perplexity.build_first_queries st) w)) ->
   queries (merge st (value_of (exec c (Perplexity.build_first_queries st) w)))
   = [user_input st]) /\
  (In (EvInvoke m prompt (Raise e))
      (calls_of (exec c (PerplexityOptimized.generate_queries lower st) w)) ->
   queries
     (merge st
        (value_of (exec c (PerplexityOptimized.generate_queries lower st) w)))
   = [ lower (user_input st); lit "what is " ++ lower (user_input st) ]).
Proof.
  split; intros Hin.
  - destruct (build_first_queries_runs st _ _
                (exec_returns c (Perplexity.build_first_queries st) w))
      as (ans & Htr & Hu).
    rewrite Htr in Hin. destruct Hin as [[= _ _ ->]|[]].
    rewrite Hu. reflexivity.
  - destruct (generate_queries_runs lower st _ _
                (exec_returns c (PerplexityOptimized.generate_queries lower st) w))
      as (ans & qs & Htr & Hu & _ & Hraise & _).
    rewrite Htr in Hin. destruct Hin as [[= _ _ ->]|[]].
    rewrite Hu, (Hraise e eq_refl). reflexivity.
Qed.

Lemma C3_witness :
  let st := initial_state Scenarios.question in
  (In (EvStructured planner_llm (Prompts.build_queries Scenarios.question)
         (Raise Scenarios.timeout_error))
      (calls_of (exec Scenarios.failing_models
                   (Perplexity.build_first_queries st) tt)) /\
   queries (merge st (value_of (exec Scenarios.failing_models
                                  (Perplexity.build_first_queries st) tt)))
   = [Scenarios.question]) /\
  (In (EvInvoke get_llm (PerplexityOptimized.QUERY_PROMPT Scenarios.question)
         (Raise Scenarios.timeout_error))
      (calls_of (exec Scenarios.failing_models
                   (PerplexityOptimized.generate_queries Scenarios.ascii_lower st)
                   tt)) /\
   queries (merge st
              (value_of (exec Scenarios.failing_models
                           (PerplexityOptimized.generate_queries
                              Scenarios.ascii_lower st) tt)))
   = [ Scenarios.ascii_lower Scenarios.question;
       lit "what is " ++ Scenarios.ascii_lower Scenarios.question ]).
Proof.
  intros st. split; (split; [left; reflexivity|]).
  - apply (proj1 (C3_planner_fallback Scenarios.ascii_lower
                    Scenarios.failing_models tt st planner_llm
                    (Prompts.build_queries Scenarios.question)
                    Scenarios.timeout_error)).
    left; reflexivity.
  - apply (proj2 (C3_planner_fallback Scenarios.ascii_lower
                    Scenarios.failing_models tt st get_llm
                    (PerplexityOptimized.QUERY_PROMPT Scenarios.question)
                    Scenarios.timeout_error)).
    left; reflexivity.
Defined.

(** C4. When the accumulated list of results is empty, the final
    synthesizer of either variant answers with its fixed message and the
    long-form model is not invoked: whatever the collaborators are, the
    run makes no call at all and leaves them as they were. *)
Theorem C4_empty_results_fixed_message
    {W : Type} (c : collaborators W) (w : W) (st : ReportState) :
  queries_results st = [] ->
  (exec c (Perplexity.final_writer st) w =
     ({[ "final_response" := VStr Perplexity.no_information ]}, [], w) /\
   final_response (merge st (value_of (exec c (Perplexity.final_writer st) w)))
     = Perplexity.no_information) /\
  (exec c (PerplexityOptimized.write_response st) w =
     ({[ "final_response" := VStr PerplexityOptimized.no_information ]}, [], w) /\
   final_response
     (merge st (value_of (exec c (PerplexityOptimized.write_response st) w)))
     = PerplexityOptimized.no_information).
Proof.
  intros Hempty.
  rewrite (final_writer_empty st Hempty), (write_response_empty st Hempty).
  repeat split.
Qed.

Lemma C4_witness :
  queries_results Scenarios.planned = [] /\
  exec Scenarios.answering_models (Perplexity.final_writer Scenarios.planned) tt =
    ({[ "final_response" := VStr Perplexity.no_information ]}, [], tt).
Proof.
  split; [reflexivity|].
  apply (C4_empty_results_fixed_message Scenarios.answering_models tt
           Scenarios.planned).
  reflexivity.
Defined.

(** C5, as stated, fails for the optimized variant: with one accumulated
    result and a model that answers [an answer], [write_response] returns
    the answer alone; no heading and no reference entry follows it. *)
Lemma C5_counterexample :
  let run := exec Scenarios.answering_models
               (PerplexityOptimized.write_response Scenarios.searched) tt in
  queries_results Scenarios.searched <> [] /\
  calls_of run =
    [ EvInvoke get_llm
        (PerplexityOptimized.FINAL_PROMPT Scenarios.question
           (join (nl ++ nl)
              (PerplexityOptimized.search_context [Scenarios.a_result])))
        (Ok (lit "an answer")) ] /\
  final_response (merge Scenarios.searched (value_of run)) = lit "an answer" /\
  forall before after : str,
    final_response (merge Scenarios.searched (value_of run)) <>
    lit "an answer" ++ before ++ lit "References:" ++ after.
Proof.
  intros run. split; [discriminate|]. split; [reflexivity|].
  split; [reflexivity|].
  intros before after. apply app_length_ne.
  change (final_response (merge Scenarios.searched (value_of run)))
    with (lit "an answer").
  rewrite !length_app.
  change (length (lit "References:")) with 11. lia.
Qed.

(** C5, amended. For a non-empty accumulated sequence the final
    synthesizer calls the long-form model once. In perplexity.py the prompt
    holds one section per result, and when the model returns a text the
    output is that text, the heading (two newlines, [References:], a
    newline) and the reference entries joined by newlines; there is one
    entry per result, in accumulation order, and the entry and the section
    at position [n] are both built from the number [n + 1] and the result
    at position [n], so they carry the same title and URL. In
    perplexity_optimized.py the output is the model's text stripped of
    surrounding white space, without heading or entries; the section at
    position [n] of its prompt is built from [n + 1] and the title and
    resume of the result at position [n]. *)
Theorem C5_final_answer_layout
    {W : Type} (c : collaborators W) (w : W) (st : ReportState) :
  queries_results st <> [] ->
  let rs := queries_results st in
  (exists ans,
     calls_of (exec c (Perplexity.final_writer st) w) =
       [ EvInvoke reasoning_llm
           (Prompts.build_final_response (user_input st)
              (join [] (Perplexity.body_parts rs))) ans ] /\
     (forall final_text, ans = Ok final_text ->
        final_response (merge st (value_of (exec c (Perplexity.final_writer st) w)))
        = (final_text ++ nl ++ nl ++ lit "References:" ++ nl) ++
          join nl (Perplexity.ref_parts rs)) /\
     length (Perplexity.ref_parts rs) = length rs /\
     length (Perplexity.body_parts rs) = length rs /\
     (forall n res, rs !! n = Some res ->
        Perplexity.ref_parts rs !! n =
          Some (lit "[" ++ str_of_nat (S n) ++ lit "] - [" ++ title res ++
                lit "](" ++ url res ++ lit ")") /\
        Perplexity.body_parts rs !! n =
          Some (lit "[" ++ str_of_nat (S n) ++ lit "]" ++ nl ++
                lit "Title: " ++ title res ++ nl ++
                lit "URL: " ++ url res ++ nl ++
                lit "Content: " ++ resume res ++ nl ++
                lit "----------------" ++ nl))) /\
  (exists ans,
     calls_of (exec c (PerplexityOptimized.write_response st) w) =
       [ EvInvoke get_llm
           (PerplexityOptimized.FINAL_PROMPT (user_input st)
              (join (nl ++ nl) (PerplexityOptimized.search_context rs))) ans ] /\
     (forall response, ans = Ok response ->
        final_response
          (merge st (value_of (exec c (PerplexityOptimized.write_response st) w)))
        = strip response) /\
     (forall n res, rs !! n = Some res ->
        PerplexityOptimized.search_context rs !! n =
          Some (lit "[" ++ str_of_nat (S n) ++ lit "] " ++ title res ++
                lit ": " ++ resume res))).
Proof.
  intros Hne rs. split.
  - destruct (final_writer_runs st _ _ Hne
                (exec_returns c (Perplexity.final_writer st) w))
      as (ans & Htr & Hu).
    exists ans. split; [exact Htr|]. split; [|split; [|split]].
    + intros final_text ->. rewrite Hu. reflexivity.
    + apply enumerate_map_length.
    + apply enumerate_map_length.
    + intros n res Hn. unfold Perplexity.ref_parts, Perplexity.body_parts.
      rewrite !enumerate_map_lookup, Hn. split; reflexivity.
  - destruct (write_response_runs st _ _ Hne
                (exec_returns c (PerplexityOptimized.write_response st) w))
      as (ans & Htr & Hu).
    exists ans. split; [exact Htr|]. split.
    + intros response ->. rewrite Hu. reflexivity.
    + intros n res Hn. unfold PerplexityOptimized.search_context.
      rewrite enumerate_map_lookup, Hn. reflexivity.
Qed.

Lemma C5_witness :
  queries_results Scenarios.searched <> [] /\
  final_response
    (merge Scenarios.searched
       (value_of (exec Scenarios.answering_models
                    (Perplexity.final_writer Scenarios.searched) tt)))
  = lit "an answer" ++ nl ++ nl ++ lit "References:" ++ nl ++
    lit "[1] - [Photosynthesis](https://example.org/p)".
Proof.
  split; [discriminate|].
  destruct (C5_final_answer_layout Scenarios.answering_models tt
              Scenarios.searched ltac:(discriminate))
    as [(ans & Htr & Hok & _) _].
  injection Htr as <-.
  rewrite (Hok _ eq_refl). reflexivity.
Defined.



(** C7. When the long-form model raises, the final synthesizer of either
    variant still returns: its [final_response] is the error prefix followed
    by the description of the exception, and nothing else, so neither the
    references heading nor any reference entry is appended. *)
Theorem C7_synthesis_failure_is_reported
    {W : Type} (c : collaborators W) (w : W) (st : ReportState)
    (m : model) (prompt e : str) :
  (In (EvInvoke m prompt (Raise e))
      (calls_of (exec c (Perplexity.final_writer st) w)) ->
   value_of (exec c (Perplexity.final_writer st) w) =
     {[ "final_response" := VStr (Perplexity.error_prefix ++ e) ]}) /\
  (In (EvInvoke m prompt (Raise e))
      (calls_of (exec c (PerplexityOptimized.write_response st) w)) ->
   value_of (exec c (PerplexityOptimized.write_response st) w) =
     {[ "final_response" := VStr (PerplexityOptimized.error_prefix ++ e) ]}).
Proof.
  split; intros Hin.
  - pose proof (exec_returns c (Perplexity.final_writer st) w) as Hrun.
    destruct (queries_results st) as [|qr rs] eqn:Hrs.
    + rewrite (final_writer_empty st Hrs) in Hin. destruct Hin.
    + apply final_writer_runs in Hrun as (ans & Htr & Hu); [|congruence].
      rewrite Htr in Hin. destruct Hin as [[= _ _ ->]|[]]. exact Hu.
  - pose proof (exec_returns c (PerplexityOptimized.write_response st) w) as Hrun.
    destruct (queries_results st) as [|qr rs] eqn:Hrs.
    + rewrite (write_response_empty st Hrs) in Hin. destruct Hin.
    + apply write_response_runs in Hrun as (ans & Htr & Hu); [|congruence].
      rewrite Htr in Hin. destruct Hin as [[= _ _ ->]|[]]. exact Hu.
Qed.

Lemma C7_witness :
  In (EvInvoke reasoning_llm
        (Prompts.build_final_response Scenarios.question
           (join [] (Perplexity.body_parts [Scenarios.a_result])))
        (Raise Scenarios.timeout_error))
     (calls_of (exec Scenarios.failing_models
                  (Perplexity.final_writer Scenarios.searched) tt)) /\
  value_of (exec Scenarios.failing_models
              (Perplexity.final_writer Scenarios.searched) tt) =
    {[ "final_response" :=
         VStr (Perplexity.error_prefix ++ Scenarios.timeout_error) ]}.
Proof.
  split; [left; reflexivity|].
  apply (proj1 (C7_synthesis_failure_is_reported Scenarios.failing_models tt
                  Scenarios.searched reasoning_llm
                  (Prompts.build_final_response Scenarios.question
                     (join [] (Perplexity.body_parts [Scenarios.a_result])))
                  Scenarios.timeout_error)).
  left; reflexivity.
Defined.

(** C8, as stated, fails in both variants, and with a number of queries
    inside the stated range: neither planner removes repetitions. In
    perplexity.py the planner hands on the three equal queries the model
    extracted; in perplexity_optimized.py it keeps both of two equal lines of
    the model's answer. *)
Lemma C8_counterexample :
  let st := initial_state Scenarios.question in
  let base :=
    queries (merge st (value_of (exec Scenarios.duplicating_planner
                                   (Perplexity.build_first_queries st) tt))) in
  let optimized :=
    queries (merge st (value_of (exec Scenarios.duplicating_planner
                                   (PerplexityOptimized.generate_queries
                                      Scenarios.ascii_lower st) tt))) in
  Scenarios.question <> [] /\
  (base = [lit "llm"; lit "llm"; lit "llm"] /\
   1 <= length base <= 5 /\ ~ NoDup base) /\
  (optimized = [lit "llm basics"; lit "llm basics"] /\
   1 <= length optimized <= 5 /\ ~ NoDup optimized) /\
  ~ (1 <= length base <= 5 /\ NoDup base) /\
  ~ (1 <= length optimized <= 5 /\ NoDup optimized).
Proof.
  intros st base optimized.
  assert (Hbase : base = [lit "llm"; lit "llm"; lit "llm"]) by reflexivity.
  assert (Hopt : optimized = [lit "llm basics"; lit "llm basics"])
    by (vm_compute; reflexivity).
  assert (Hb : ~ NoDup base).
  { rewrite Hbase. intros H. apply NoDup_cons in H as [Hn _].
    apply Hn. left. }
  assert (Ho : ~ NoDup optimized).
  { rewrite Hopt. intros H. apply NoDup_cons in H as [Hn _].
    apply Hn. left. }
  split; [discriminate|].
  split; [split; [exact Hbase|]; split; [rewrite Hbase; cbn; lia | exact Hb]|].
  split; [split; [exact Hopt|]; split; [rewrite Hopt; cbn; lia | exact Ho]|].
  split; intros [_ H]; auto.
Qed.

(** C8, amended. The planner's output is an ordered sequence of query
    strings, which need not be pairwise distinct.

    In perplexity_optimized.py the sequence has between 1 and 3 entries on
    every run. When the model answers, it is the first three usable lines
    of the answer in the answer's order, or the three templated queries when
    no line is usable; when the model raises, it is the two fallback
    queries. The two fallback sequences are pairwise distinct.

    In perplexity.py, when the model raises the sequence is the question
    alone, and when the model extracts between 1 and 5 queries the sequence
    is the model's list as it is, in its order and with its repetitions. *)
Theorem C8_planner_output
    (lower : str -> str) {W : Type} (c : collaborators W) (w : W)
    (st : ReportState) (m : model) (prompt : str) :
  (let run := exec c (PerplexityOptimized.generate_queries lower st) w in
   let qs := queries (merge st (value_of run)) in
   1 <= length qs <= 3 /\
   (forall e, In (EvInvoke m prompt (Raise e)) (calls_of run) ->
      qs = [ lower (user_input st); lit "what is " ++ lower (user_input st) ] /\
      NoDup qs) /\
   (forall response, In (EvInvoke m prompt (Ok response)) (calls_of run) ->
      let usable :=
        PerplexityOptimized.parse_lines (split 10%N (strip response)) [] in
      (usable <> [] -> qs = take 3 usable) /\
      (usable = [] ->
         qs = [ lower (user_input st) ++ lit " explained";
                lit "what is " ++ lower (user_input st);
                lit "how does " ++ lower (user_input st) ++ lit " work" ] /\
         NoDup qs))) /\
  (let run := exec c (Perplexity.build_first_queries st) w in
   let qs := queries (merge st (value_of run)) in
   (forall e, In (EvStructured m prompt (Raise e)) (calls_of run) ->
      qs = [user_input st] /\ NoDup qs) /\
   (forall l, In (EvStructured m prompt (Ok l)) (calls_of run) ->
      1 <= length l <= 5 ->
      qs = l /\ 1 <= length qs <= 5)).
Proof.
  split.
  - destruct (generate_queries_runs lower st _ _
                (exec_returns c (PerplexityOptimized.generate_queries lower st) w))
      as (ans & qs & Htr & Hu & Hlen & Hraise & Hok).
    cbv zeta. rewrite Htr, Hu.
    change (queries (merge st {[ "queries" := VQueries qs ]})) with qs.
    split; [exact Hlen|]. split.
    + intros e [[= _ _ Hans]|[]]. rewrite (Hraise e Hans).
      split; [reflexivity|].
      repeat (apply NoDup_cons_2); try apply NoDup_nil_2;
        rewrite ?not_elem_of_cons; repeat split; try apply not_elem_of_nil.
      apply app_length_ne. rewrite ?length_app.
      change (length (lit "what is ")) with 8. lia.
    + intros response [[= _ _ Hans]|[]].
      specialize (Hok response Hans). cbv zeta in Hok.
      split.
      * intros Hne.
        destruct (PerplexityOptimized.parse_lines (split 10%N (strip response)) [])
          as [|q usable]; [congruence | exact Hok].
      * intros Hnil. rewrite Hnil in Hok. rewrite Hok.
        split; [reflexivity|].
        cbn [take].
        repeat (apply NoDup_cons_2); try apply NoDup_nil_2;
          rewrite ?not_elem_of_cons; repeat split; try apply not_elem_of_nil;
          apply app_length_ne; rewrite ?length_app;
          change (length (lit " explained")) with 10;
          change (length (lit "what is ")) with 8;
          change (length (lit "how does ")) with 9;
          change (length (lit " work")) with 5; lia.
  - destruct (build_first_queries_runs st _ _
                (exec_returns c (Perplexity.build_first_queries st) w))
      as (ans & Htr & Hu).
    cbv zeta. rewrite Htr, Hu. split.
    + intros e [[= _ _ ->]|[]]. split; [reflexivity|].
      change (NoDup [user_input st]).
      apply NoDup_cons_2; [apply not_elem_of_nil | apply NoDup_nil_2].
    + intros l [[= _ _ ->]|[]] Hlen.
      change (queries (merge st {[ "queries" := VQueries l ]})) with l.
      split; [reflexivity | exact Hlen].
Qed.

Lemma C8_witness :
  let st := initial_state Scenarios.question in
  let fallback :=
    queries (merge st (value_of (exec Scenarios.failing_models
                                   (PerplexityOptimized.generate_queries
                                      Scenarios.ascii_lower st) tt))) in
  let templated :=
    queries (merge st (value_of (exec Scenarios.blank_models
                                   (PerplexityOptimized.generate_queries
                                      Scenarios.ascii_lower st) tt))) in
  let alone :=
    queries (merge st (value_of (exec Scenarios.failing_models
                                   (Perplexity.build_first_queries st) tt))) in
  let extracted :=
    queries (merge st (value_of (exec Scenarios.duplicating_planner
                                   (Perplexity.build_first_queries st) tt))) in
  (fallback = [ lit "what is photosynthesis?";
                lit "what is what is photosynthesis?" ] /\ NoDup fallback) /\
  (templated = [ lit "what is photosynthesis? explained";
                 lit "what is what is photosynthesis?";
                 lit "how does what is photosynthesis? work" ] /\
   NoDup templated) /\
  (alone = [Scenarios.question] /\ NoDup alone) /\
  (extracted = [lit "llm"; lit "llm"; lit "llm"] /\ 1 <= length extracted <= 5).
Proof.
  intros st fallback templated alone extracted.
  split; [|split; [|split]].
  - apply (proj1 (proj2 (proj1
             (C8_planner_output Scenarios.ascii_lower Scenarios.failing_models
                tt st get_llm
                (PerplexityOptimized.QUERY_PROMPT Scenarios.question))))
             Scenarios.timeout_error).
    left; reflexivity.
  - apply (proj2 (proj2 (proj1
             (C8_planner_output Scenarios.ascii_lower Scenarios.blank_models
                tt st get_llm
                (PerplexityOptimized.QUERY_PROMPT Scenarios.question))))
             (lit "  ")).
    + left; reflexivity.
    + reflexivity.
  - apply (proj1 (proj2
             (C8_planner_output Scenarios.ascii_lower Scenarios.failing_models
                tt st planner_llm (Prompts.build_queries Scenarios.question)))
             Scenarios.timeout_error).
    left; reflexivity.
  - apply (proj2 (proj2
             (C8_planner_output Scenarios.ascii_lower
                Scenarios.duplicating_planner
                tt st planner_llm (Prompts.build_queries Scenarios.question)))
             [lit "llm"; lit "llm"; lit "llm"]).
    + left; reflexivity.
    + cbn; lia.
Defined.

(** C9. In either variant the update a stage returns has exactly one key,
    the field that stage owns ([queries] for the planner, [queries_results]
    for the search loop, [final_response] for the synthesizer), so applying
    it leaves every other field of the state, [user_input] among them, as
    it was; the state the graph ends with still has the [user_input] it
    started with. *)
Theorem C9_each_stage_writes_its_own_field
    (lower : str -> str) {W : Type} (c : collaborators W) (w : W)
    (st : ReportState) :
  let planner u :=
    dom u = ({[ "queries" ]} : gset string) /\
    user_input (merge st u) = user_input st /\
    queries_results (merge st u) = queries_results st /\
    final_response (merge st u) = final_response st in
  let searcher u :=
    dom u = ({[ "queries_results" ]} : gset string) /\
    user_input (merge st u) = user_input st /\
    queries (merge st u) = queries st /\
    final_response (merge st u) = final_response st in
  let synthesizer u :=
    dom u = ({[ "final_response" ]} : gset string) /\
    user_input (merge st u) = user_input st /\
    queries (merge st u) = queries st /\
    queries_results (merge st u) = queries_results st in
  (planner (value_of (exec c (Perplexity.build_first_queries st) w)) /\
   searcher (value_of (exec c (Perplexity.serial_search st) w)) /\
   synthesizer (value_of (exec c (Perplexity.final_writer st) w))) /\
  (planner (value_of (exec c (PerplexityOptimized.generate_queries lower st) w)) /\
   searcher (value_of (exec c (PerplexityOptimized.execute_search st) w)) /\
   synthesizer (value_of (exec c (PerplexityOptimized.write_response st) w))) /\
  (user_input (value_of (exec c (Perplexity.graph_invoke st) w)) = user_input st /\
   user_input (value_of (exec c (PerplexityOptimized.graph_invoke lower st) w))
   = user_input st).
Proof.
  intros planner searcher synthesizer.
  assert (Hp : forall l, planner {[ "queries" := VQueries l ]}).
  { intros l. split; [apply dom_singleton_L | repeat split]. }
  assert (Hs : forall l, searcher {[ "queries_results" := VResults l ]}).
  { intros l. split; [apply dom_singleton_L | repeat split]. }
  assert (Hf : forall s, synthesizer {[ "final_response" := VStr s ]}).
  { intros s. split; [apply dom_singleton_L | repeat split]. }
  split; [|split]; split; [| split | | split | |].
  - destruct (build_first_queries_runs st _ _
                (exec_returns c (Perplexity.build_first_queries st) w))
      as (ans & _ & ->). apply Hp.
  - pose proof (exec_returns c (Perplexity.serial_search st) w) as Hrun.
    unfold Perplexity.serial_search in Hrun at 1.
    apply returns_bind_inv in Hrun as (tr1 & rs & tr2 & _ & _ & Hret).
    apply returns_Ret_inv in Hret as [_ ->]. apply Hs.
  - pose proof (exec_returns c (Perplexity.final_writer st) w) as Hrun.
    destruct (queries_results st) as [|qr rs] eqn:Hrs.
    + rewrite (final_writer_empty st Hrs). apply Hf.
    + apply final_writer_runs in Hrun as (ans & _ & ->); [apply Hf|congruence].
  - destruct (generate_queries_runs lower st _ _
                (exec_returns c (PerplexityOptimized.generate_queries lower st) w))
      as (ans & qs & _ & -> & _). apply Hp.
  - pose proof (exec_returns c (PerplexityOptimized.execute_search st) w) as Hrun.
    unfold PerplexityOptimized.execute_search in Hrun at 1.
    apply returns_bind_inv in Hrun as (tr1 & [rs out] & tr2 & _ & _ & Hret).
    apply returns_Ret_inv in Hret as [_ ->]. apply Hs.
  - pose proof (exec_returns c (PerplexityOptimized.write_response st) w) as Hrun.
    destruct (queries_results st) as [|qr rs] eqn:Hrs.
    + rewrite (write_response_empty st Hrs). apply Hf.
    + apply write_response_runs in Hrun as (ans & _ & ->); [apply Hf|congruence].
  - pose proof (exec_returns c (Perplexity.graph_invoke st) w) as Hrun.
    apply graph_invoke_runs in Hrun
      as (tr1 & u1 & tr2 & u2 & tr3 & u3 & _ & H1 & H2 & H3 & ->).
    apply build_first_queries_runs in H1 as (ans & _ & ->).
    apply serial_search_update in H2 as (rs & ->).
    apply final_writer_nonempty in H3 as (s & -> & _). reflexivity.
  - pose proof (exec_returns c (PerplexityOptimized.graph_invoke lower st) w)
      as Hrun.
    apply optimized_graph_invoke_runs in Hrun
      as (tr1 & u1 & tr2 & u2 & tr3 & u3 & _ & H1 & H2 & H3 & ->).
    apply generate_queries_runs in H1 as (ans & qs & _ & -> & _).
    apply execute_search_update in H2 as (rs & ->).
    apply write_response_outcome in H3 as (s & -> & _). reflexivity.
Qed.

(** C10. In the optimized variant every result the search stage appends
    is built from the first hit of a search made for a planned query; its
    [resume] is the first 1000 characters of the selected content (the raw
    content when there is some, else the snippet), so at most 1000
    characters long, and the empty string when the hit has neither. *)
Theorem C10_optimized_resume_is_truncated_content
    {W : Type} (c : collaborators W) (w : W) (st : ReportState) :
  let run := exec c (PerplexityOptimized.execute_search st) w in
  (exists rs,
     value_of run = {[ "queries_results" := VResults rs ]} /\
     Forall (fun qr =>
               length (resume qr) <= 1000 /\
               exists q r rest,
                 In q (queries st) /\
                 In (EvSearch q 1 true (Ok (mkResponse (Some (r :: rest)))))
                    (calls_of run) /\
                 qr = PerplexityOptimized.query_result_of r /\
                 resume qr = take 1000 (PerplexityOptimized.selected_content r))
            rs) /\
  (forall t u,
     resume (PerplexityOptimized.query_result_of (mkHit t u None None)) = []).
Proof.
  intros run. split; [|reflexivity].
  pose proof (exec_returns c (PerplexityOptimized.execute_search st) w) as Hrun.
  fold run in Hrun.
  unfold PerplexityOptimized.execute_search in Hrun at 1.
  apply returns_bind_inv in Hrun as (tr1 & [rs out] & tr2 & Htr & Hloop & Hret).
  apply returns_Ret_inv in Hret as [-> Hu]. rewrite app_nil_r in Htr.
  apply execute_search_loop_runs in Hloop as (hits & -> & Hhits & _).
  exists (List.map PerplexityOptimized.query_result_of hits).
  split; [exact Hu|]. rewrite Htr.
  rewrite List.Forall_map. eapply Forall_impl; [exact Hhits|].
  intros r (q & rest & Hq & Hin). split.
  - rewrite query_result_of_resume, length_take. lia.
  - exists q, r, rest. repeat split; try assumption.
    apply query_result_of_resume.
Qed.

(* ===================================================================== *)
(** ** Further properties of the nodes                                   *)
(* ===================================================================== *)

(** Whether a search answer holds a first hit. *)
Lemma serial_search_query_shape st q tr o :
  returns (Perplexity.serial_search_query st q) tr o ->
  exists ans,
    (tr = [EvSearch q 1 true ans] /\ o = None) \/
    (exists r rest prompt out,
       ans = Ok (mkResponse (Some (r :: rest))) /\
       tr = [EvSearch q 1 true ans; EvInvoke planner_llm prompt out] /\
       (o = None \/
        exists summary t l,
          out = Ok summary /\ hit_title r = Some t /\ hit_url r = Some l /\
          o = Some (mkQueryResult t l summary))).
Proof.
  unfold Perplexity.serial_search_query, Perplexity.serial_search_body.
  intros H. run_inv.
  2: { eexists. left. split; reflexivity. }
  destruct a as [[[|r rest]|]]; cbn [results] in *; run_inv;
    try (eexists; left; split; reflexivity).
  destruct (hit_raw_content r) as [[|c s]|] eqn:Eraw;
    destruct (hit_content r) as [v|] eqn:Ec;
    destruct (hit_title r) as [t|] eqn:Et;
    destruct (hit_url r) as [l|] eqn:El;
    run_inv;
    try (eexists; left; split; reflexivity);
    (eexists; right; do 4 eexists;
     split; [reflexivity|]; split; [reflexivity|];
     first [ left; reflexivity
           | right; do 3 eexists;
             split; [reflexivity|]; split; [eassumption|];
             split; [eassumption | reflexivity] ]).
Qed.

Lemma omap_length_le {A B : Type} (f : A -> option B) (l : list A) :
  length (omap f l) <= length l.
Proof.
  induction l as [|x l IH]; [reflexivity|].
  cbn [omap list_omap]. destruct (f x); cbn [length]; lia.
Qed.

(** X1. perplexity.py, [serial_search]: whatever the collaborators do, the
    loop makes one turn per planned query, in the planned order. A turn is
    the search for its query (one result asked, raw content included),
    followed at most by one call of the summarizer, and it appends at most
    one result; when the search raises or finds nothing the turn is the
    search alone and appends nothing. The results are those of the turns,
    in order, so there are never more results than planned queries. *)
Theorem X1_serial_search_one_turn_per_query
    {W : Type} (c : collaborators W) (w : W) (st : ReportState) :
  let run := exec c (Perplexity.serial_search st) w in
  exists turns : list (list event * option QueryResult),
    calls_of run = concat (turns.*1) /\
    value_of run = {[ "queries_results" := VResults (omap snd turns) ]} /\
    length (omap snd turns) <= length (queries st) /\
    Forall2
      (fun q turn =>
         exists ans,
           (turn = ([EvSearch q 1 true ans], None) /\
            (ans = Ok (mkResponse None) \/ ans = Ok (mkResponse (Some [])) \/
             (exists e, ans = Raise e) \/
             exists r rest, ans = Ok (mkResponse (Some (r :: rest))) /\
                            (hit_raw_content r = None \/
                             hit_raw_content r = Some []) /\
                            hit_content r = None)) \/
           (exists r rest prompt out,
              ans = Ok (mkResponse (Some (r :: rest))) /\
              turn.1 = [EvSearch q 1 true ans; EvInvoke planner_llm prompt out] /\
              (turn.2 = None \/
               exists summary t l,
                 out = Ok summary /\ hit_title r = Some t /\
                 hit_url r = Some l /\
                 turn.2 = Some (mkQueryResult t l summary))))
      (queries st) turns.
Proof.
  intros run.
  pose proof (exec_returns c (Perplexity.serial_search st) w) as Hrun.
  fold run in Hrun. unfold Perplexity.serial_search in Hrun at 1.
  apply returns_bind_inv in Hrun as (tr1 & rs & tr2 & Htr & Hloop & Hret).
  apply returns_Ret_inv in Hret as [-> Hu]. rewrite app_nil_r in Htr.
  apply serial_search_loop_runs in Hloop as (turns & Hall & -> & ->).
  exists turns. split; [exact Htr|]. split; [exact Hu|]. split.
  - rewrite (Forall2_length _ _ _ Hall). apply omap_length_le.
  - eapply Forall2_impl; [exact Hall|].
    intros q [tr o] Hq. cbn [fst snd] in Hq.
    unfold Perplexity.serial_search_query, Perplexity.serial_search_body in Hq.
    run_inv.
    2: { eexists. left. split; [reflexivity|]. right. right. left. eauto. }
    destruct a as [[[|r rest]|]]; cbn [results] in *; run_inv;
      try (eexists; left; split; [reflexivity|]; auto; fail).
    destruct (hit_raw_content r) as [[|ch s]|] eqn:Eraw;
      destruct (hit_content r) as [v|] eqn:Ec;
      destruct (hit_title r) as [t|] eqn:Et;
      destruct (hit_url r) as [l|] eqn:El;
      run_inv;
      try (eexists; left; split; [reflexivity|];
           right; right; right; exists r, rest; auto; fail);
      (eexists; right; exists r, rest; do 2 eexists;
       split; [reflexivity|]; split; [reflexivity|];
       first [ left; reflexivity
             | right; do 3 eexists;
               split; [reflexivity|]; split; [eassumption|];
               split; [eassumption | reflexivity] ]).
Qed.

Lemma execute_search_loop_prefix qs acc tr rs out :
  returns (PerplexityOptimized.execute_search_loop qs acc) tr (rs, out) ->
  exists answers : list (result response),
    tr = zip_with (fun q a => EvSearch q 1 true a) qs answers /\
    length answers <= length qs /\
    (forall i e, answers !! i = Some (Raise e) -> length answers = S i) /\
    ((forall i e, answers !! i <> Some (Raise e)) ->
     length answers = length qs) /\
    rs = acc ++
         flat_map (fun a =>
                     match a with
                     | Ok resp =>
                         match results resp with
                         | Some (r :: _) => [PerplexityOptimized.query_result_of r]
                         | _ => []
                         end
                     | Raise _ => []
                     end) answers.
Proof.
  revert acc tr. induction qs as [|q qs IH]; intros acc tr H;
    cbn [PerplexityOptimized.execute_search_loop] in H; run_inv.
  - match goal with H : (_, _) = (_, _) |- _ => inversion H; subst; clear H end.
    exists []. cbn. rewrite app_nil_r. repeat split; try lia.
    intros i e Hi. destruct i; discriminate.
  - apply IH in H as (answers & -> & Hlen & Hraise & Hall & ->).
    exists (Ok a :: answers). cbn [zip_with length flat_map].
    split; [reflexivity|]. split; [lia|]. split; [|split].
    + intros [|i] e Hi; [discriminate|]. f_equal. eapply Hraise. exact Hi.
    + intros Hno. f_equal. apply Hall. intros i e Hi.
      apply (Hno (S i) e). exact Hi.
    + destruct (results a) as [[|r rest]|]; cbn [app];
        rewrite <- ?app_assoc; reflexivity.
  - match goal with H : (_, _) = (_, _) |- _ => inversion H; subst; clear H end.
    exists [Raise e]. cbn [zip_with length flat_map app].
    split; [destruct qs; reflexivity|]. split; [lia|]. split; [|split].
    + intros [|i] e' Hi; [reflexivity | destruct i; discriminate].
    + intros Hno. exfalso. apply (Hno 0 e). reflexivity.
    + rewrite app_nil_r. reflexivity.
Qed.

(** X2. perplexity_optimized.py, [execute_search]: the planned queries are
    searched in order, one search each (one result asked, raw content
    included), until a search raises; that search is the last call, the
    queries after it are never searched, and if no search raises every
    query is searched. The results are the first hits of the answered
    searches, in order, so there are never more results than queries. *)
Theorem X2_execute_search_stops_at_first_raise
    {W : Type} (c : collaborators W) (w : W) (st : ReportState) :
  let run := exec c (PerplexityOptimized.execute_search st) w in
  exists answers : list (result response),
    calls_of run =
      zip_with (fun q a => EvSearch q 1 true a) (queries st) answers /\
    length answers <= length (queries st) /\
    (forall i e, answers !! i = Some (Raise e) -> length answers = S i) /\
    ((forall i e, answers !! i <> Some (Raise e)) ->
     length answers = length (queries st)) /\
    (exists rs,
       value_of run = {[ "queries_results" := VResults rs ]} /\
       length rs <= length (queries st) /\
       rs = flat_map (fun a =>
                        match a with
                        | Ok resp =>
                            match results resp with
                            | Some (r :: _) =>
                                [PerplexityOptimized.query_result_of r]
                            | _ => []
                            end
                        | Raise _ => []
                        end) answers).
Proof.
  intros run.
  pose proof (exec_returns c (PerplexityOptimized.execute_search st) w) as Hrun.
  fold run in Hrun. unfold PerplexityOptimized.execute_search in Hrun at 1.
  apply returns_bind_inv in Hrun as (tr1 & [rs out] & tr2 & Htr & Hloop & Hret).
  apply returns_Ret_inv in Hret as [-> Hu]. rewrite app_nil_r in Htr.
  apply execute_search_loop_prefix in Hloop
    as (answers & -> & Hlen & Hraise & Hall & ->).
  exists answers. split; [exact Htr|]. split; [exact Hlen|].
  split; [exact Hraise|]. split; [exact Hall|].
  eexists. split; [exact Hu|]. split; [|reflexivity].
  cbn [app]. etransitivity; [|exact Hlen].
  clear. induction answers as [|a answers IH]; [reflexivity|].
  cbn [flat_map]. rewrite length_app.
  destruct a as [resp|e]; [destruct (results resp) as [[|r rest]|]|];
    cbn [length]; lia.
Qed.

Lemma serial_search_loop_no_hits st qs acc tr rs :
  returns (Perplexity.serial_search_loop st qs acc) tr rs ->
  (forall q n raw resp,
     In (EvSearch q n raw (Ok resp)) tr ->
     results resp = None \/ results resp = Some []) ->
  rs = acc /\ Forall (fun ev => exists q a, ev = EvSearch q 1 true a) tr.
Proof.
  revert acc tr. induction qs as [|q qs IH]; intros acc tr H Hno;
    cbn [Perplexity.serial_search_loop] in H.
  - run_inv. split; [reflexivity | constructor].
  - apply returns_bind_inv in H as (tr1 & o & tr2 & -> & Hq & Hrest).
    apply serial_search_query_shape in Hq
      as (ans & [[-> ->] | (r & rest & prompt & out & -> & -> & _)]).
    + apply IH in Hrest as [-> Hall].
      * split; [reflexivity|]. constructor; [eauto | exact Hall].
      * intros q' n raw resp Hin. eapply Hno. right. exact Hin.
    + exfalso.
      destruct (Hno q 1 true (mkResponse (Some (r :: rest))))
        as [Hres | Hres]; [left; reflexivity | discriminate | discriminate].
Qed.

(** X3. In both variants, when no search of a run finds a hit (each one
    raises, or answers without results), the run ends with the variant's
    fixed message and the final synthesizer calls no model: in
    perplexity.py the calls are the planner's extraction followed by
    searches only; in perplexity_optimized.py they are the planner's call
    followed by searches only. *)
Theorem X3_no_hit_gives_fixed_message
    (lower : str -> str) {W : Type} (c : collaborators W) (w : W)
    (question : str) :
  (let run := exec c (Perplexity.run question) w in
   (forall q n raw resp,
      In (EvSearch q n raw (Ok resp)) (calls_of run) ->
      results resp = None \/ results resp = Some []) ->
   value_of run = Perplexity.no_information /\
   exists ans searches,
     calls_of run =
       EvStructured planner_llm (Prompts.build_queries question) ans
       :: searches /\
     Forall (fun ev => exists q a, ev = EvSearch q 1 true a) searches) /\
  (let run := exec c (PerplexityOptimized.run lower question) w in
   (forall q n raw resp,
      In (EvSearch q n raw (Ok resp)) (calls_of run) ->
      results resp = None \/ results resp = Some []) ->
   value_of run = PerplexityOptimized.no_information /\
   exists ans searches,
     calls_of run =
       EvInvoke get_llm (PerplexityOptimized.QUERY_PROMPT question) ans
       :: searches /\
     Forall (fun ev => exists q a, ev = EvSearch q 1 true a) searches).
Proof.
  split; intros run Hno.
  - pose proof (exec_returns c (Perplexity.run question) w) as Hrun.
    fold run in Hrun. unfold Perplexity.run in Hrun at 1.
    apply returns_bind_inv in Hrun as (tr & st & tr' & Htr & Hgraph & Hret).
    apply returns_Ret_inv in Hret as [-> Hv]. rewrite app_nil_r in Htr.
    apply graph_invoke_runs in Hgraph
      as (tr1 & u1 & tr2 & u2 & tr3 & u3 & -> & H1 & H2 & H3 & ->).
    apply build_first_queries_runs in H1 as (ans & -> & ->).
    unfold Perplexity.serial_search in H2.
    apply returns_bind_inv in H2 as (tr2' & rs & tr2'' & -> & Hloop & Hret).
    apply returns_Ret_inv in Hret as [-> ->]. rewrite app_nil_r in *.
    apply serial_search_loop_no_hits in Hloop as [-> Hall].
    2: { intros q n raw resp Hin. eapply Hno. rewrite Htr.
         apply in_or_app. right. apply in_or_app. left. exact Hin. }
    rewrite final_writer_empty in H3 by reflexivity.
    apply returns_Ret_inv in H3 as [-> ->]. rewrite app_nil_r in Htr.
    split; [rewrite Hv; reflexivity|].
    exists ans, tr2'. split; [exact Htr | exact Hall].
  - pose proof (exec_returns c (PerplexityOptimized.run lower question) w) as Hrun.
    fold run in Hrun. unfold PerplexityOptimized.run in Hrun at 1.
    apply returns_bind_inv in Hrun as (tr & st & tr' & Htr & Hgraph & Hret).
    apply returns_Ret_inv in Hret as [-> Hv]. rewrite app_nil_r in Htr.
    apply optimized_graph_invoke_runs in Hgraph
      as (tr1 & u1 & tr2 & u2 & tr3 & u3 & -> & H1 & H2 & H3 & ->).
    apply generate_queries_runs in H1 as (ans & qs & -> & -> & _).
    unfold PerplexityOptimized.execute_search in H2.
    apply returns_bind_inv in H2 as (tr2' & [rs out] & tr2'' & -> & Hloop & Hret).
    apply returns_Ret_inv in Hret as [-> ->]. rewrite app_nil_r in *.
    apply execute_search_loop_runs in Hloop as (hits & -> & Hhits & Hall).
    destruct hits as [|r hits].
    2: { exfalso. apply Forall_cons in Hhits as [(q & rest & _ & Hin) _].
         destruct (Hno q 1 true (mkResponse (Some (r :: rest))))
           as [Hres | Hres]; [|discriminate|discriminate].
         rewrite Htr. apply in_or_app. right. apply in_or_app. left.
         exact Hin. }
    rewrite write_response_empty in H3 by reflexivity.
    apply returns_Ret_inv in H3 as [-> ->]. rewrite app_nil_r in Htr.
    split; [rewrite Hv; reflexivity|].
    exists ans, tr2'. split; [exact Htr | exact Hall].
Qed.

Lemma X3_witness :
  let run := exec Scenarios.repeating_planner
               (Perplexity.run Scenarios.question) tt in
  (forall q n raw resp,
     In (EvSearch q n raw (Ok resp)) (calls_of run) ->
     results resp = None \/ results resp = Some []) /\
  value_of run = Perplexity.no_information.
Proof.
  intros run.
  assert (Hno : forall q n raw resp,
             In (EvSearch q n raw (Ok resp)) (calls_of run) ->
             results resp = None \/ results resp = Some []).
  { intros q n raw resp Hin. vm_compute in Hin.
    repeat (destruct Hin as [Hin|Hin];
            [first [ discriminate Hin
                   | injection Hin as _ _ _ <-; right; reflexivity ]|]).
    destruct Hin. }
  split; [exact Hno|].
  apply (proj1 (X3_no_hit_gives_fixed_message Scenarios.ascii_lower
                  Scenarios.repeating_planner tt Scenarios.question)).
  exact Hno.
Defined.

(** X4. When the planner's model call raises, the run goes on with the
    fallback queries. In perplexity.py exactly one search follows, for the
    question itself, and after it come model calls only. In
    perplexity_optimized.py the searches that follow are for the
    lower-cased question and then for [what is] followed by it (the second
    one only if the first did not raise), and after them come model calls
    only. *)
Theorem X4_run_after_planner_failure
    (lower : str -> str) {W : Type} (c : collaborators W) (w : W)
    (question e : str) (rest : list event) :
  (calls_of (exec c (Perplexity.run question) w) =
     EvStructured planner_llm (Prompts.build_queries question) (Raise e) :: rest ->
   exists ans tail,
     rest = EvSearch question 1 true ans :: tail /\
     Forall (fun ev => exists m p r, ev = EvInvoke m p r) tail) /\
  (calls_of (exec c (PerplexityOptimized.run lower question) w) =
     EvInvoke get_llm (PerplexityOptimized.QUERY_PROMPT question) (Raise e)
     :: rest ->
   exists answers tail,
     rest = zip_with (fun q a => EvSearch q 1 true a)
              [lower question; lit "what is " ++ lower question] answers
            ++ tail /\
     1 <= length answers <= 2 /\
     (forall e' a, answers = [Raise e'; a] -> False) /\
     Forall (fun ev => exists m p r, ev = EvInvoke m p r) tail).
Proof.
  split; intros Hcalls.
  - pose proof (exec_returns c (Perplexity.run question) w) as Hrun.
    rewrite Hcalls in Hrun. unfold Perplexity.run in Hrun at 1.
    apply returns_bind_inv in Hrun as (tr & st & tr' & Htr & Hgraph & Hret).
    apply returns_Ret_inv in Hret as [-> _]. rewrite app_nil_r in Htr.
    apply graph_invoke_runs in Hgraph
      as (tr1 & u1 & tr2 & u2 & tr3 & u3 & -> & H1 & H2 & H3 & _).
    apply build_first_queries_runs in H1 as (ans & -> & ->).
    cbn [app user_input initial_state] in Htr.
    injection Htr as Hans Hrest. subst ans rest.
    unfold Perplexity.serial_search in H2.
    apply returns_bind_inv in H2 as (tr2' & rs & tr2'' & -> & Hloop & Hret).
    apply returns_Ret_inv in Hret as [-> ->]. rewrite app_nil_r in *.
    cbn [merge Perplexity.serial_search_loop queries] in Hloop.
    rewrite lookup_singleton_eq in Hloop.
    cbn [Perplexity.serial_search_loop] in Hloop.
    apply returns_bind_inv in Hloop as (turn & o & tr0 & -> & Hq & Hret).
    apply returns_Ret_inv in Hret as [-> ->]. rewrite app_nil_r.
    assert (Hfinal : Forall (fun ev => exists m p r, ev = EvInvoke m p r) tr3).
    { match type of H3 with returns (Perplexity.final_writer ?s) _ _ =>
        destruct (queries_results s) as [|qr qrs] eqn:Hrs end.
      - rewrite final_writer_empty in H3 by exact Hrs.
        apply returns_Ret_inv in H3 as [-> _]. constructor.
      - apply final_writer_runs in H3 as (a & -> & _); [|congruence].
        repeat constructor. eauto. }
    apply serial_search_query_shape in Hq
      as (a & [[-> _] | (r & rs' & prompt & out & _ & -> & _)]).
    + exists a, tr3. split; [reflexivity | exact Hfinal].
    + exists a, (EvInvoke planner_llm prompt out :: tr3).
      split; [reflexivity|]. constructor; [eauto | exact Hfinal].
  - pose proof (exec_returns c (PerplexityOptimized.run lower question) w) as Hrun.
    rewrite Hcalls in Hrun. unfold PerplexityOptimized.run in Hrun at 1.
    apply returns_bind_inv in Hrun as (tr & st & tr' & Htr & Hgraph & Hret).
    apply returns_Ret_inv in Hret as [-> _]. rewrite app_nil_r in Htr.
    apply optimized_graph_invoke_runs in Hgraph
      as (tr1 & u1 & tr2 & u2 & tr3 & u3 & -> & H1 & H2 & H3 & _).
    apply generate_queries_runs in H1 as (ans & qs & -> & -> & _ & Hfall & _).
    cbn [app user_input initial_state] in Htr.
    injection Htr as Hans Hrest. subst ans rest.
    rewrite (Hfall e eq_refl) in *.
    unfold PerplexityOptimized.execute_search in H2.
    apply returns_bind_inv in H2 as (tr2' & [rs out] & tr2'' & -> & Hloop & Hret).
    apply returns_Ret_inv in Hret as [-> ->]. rewrite app_nil_r in *.
    cbn [merge queries] in Hloop. rewrite lookup_singleton_eq in Hloop.
    apply execute_search_loop_prefix in Hloop
      as (answers & -> & Hlen & Hraise & Hall & _).
    cbn [length user_input initial_state] in *.
    assert (Hfinal : Forall (fun ev => exists m p r, ev = EvInvoke m p r) tr3).
    { match type of H3 with returns (PerplexityOptimized.write_response ?s) _ _ =>
        destruct (queries_results s) as [|qr qrs] eqn:Hrs end.
      - rewrite write_response_empty in H3 by exact Hrs.
        apply returns_Ret_inv in H3 as [-> _]. constructor.
      - apply write_response_runs in H3 as (a & -> & _); [|congruence].
        repeat constructor. eauto. }
    exists answers, tr3. split; [reflexivity|]. split; [|split; [|exact Hfinal]].
    + split; [|exact Hlen].
      destruct answers as [|a answers]; [|cbn [length]; lia].
      exfalso. assert (0 = 2) by (apply Hall; intros [|i] e'; discriminate).
      lia.
    + intros e' a ->. specialize (Hraise 0 e' eq_refl). discriminate.
Qed.

Lemma X4_witness :
  let rest :=
    [ EvSearch Scenarios.question 1 true (Ok Scenarios.one_hit);
      EvInvoke planner_llm
        (Prompts.resume_search Scenarios.question (lit "long raw content"))
        (Raise Scenarios.timeout_error) ] in
  calls_of (exec Scenarios.failing_models
              (Perplexity.run Scenarios.question) tt) =
    EvStructured planner_llm (Prompts.build_queries Scenarios.question)
      (Raise Scenarios.timeout_error) :: rest /\
  exists ans tail,
    rest = EvSearch Scenarios.question 1 true ans :: tail /\
    Forall (fun ev => exists m p r, ev = EvInvoke m p r) tail.
Proof.
  intros rest. split; [vm_compute; reflexivity|].
  apply (proj1 (X4_run_after_planner_failure Scenarios.ascii_lower
                  Scenarios.failing_models tt Scenarios.question
                  Scenarios.timeout_error rest)).
  vm_compute; reflexivity.
Defined.

(* ===================================================================== *)
(** ** Text: facts about the [str] operations                            *)
(* ===================================================================== *)

Lemma substring_of_refl s : substring_of s s.
Proof. exists [], []. rewrite app_nil_r. reflexivity. Qed.

Lemma substring_of_trans a b c :
  substring_of a b -> substring_of b c -> substring_of a c.
Proof.
  intros (p1 & q1 & ->) (p2 & q2 & ->).
  exists (p2 ++ p1), (q1 ++ q2). rewrite <- !app_assoc. reflexivity.
Qed.

Lemma substring_of_elem a s c : substring_of a s -> c ∈ a -> c ∈ s.
Proof.
  intros (p & q & ->) Hc. rewrite !elem_of_app. right. left. exact Hc.
Qed.

Lemma split_not_nil sep s : split sep s <> [].
Proof.
  destruct s as [|c s]; [discriminate|]. cbn [split].
  destruct (N.eqb c sep); [discriminate|].
  destruct (split sep s); discriminate.
Qed.

Lemma join_cons sep p parts :
  parts <> [] -> join sep (p :: parts) = p ++ sep ++ join sep parts.
Proof. destruct parts; [congruence | reflexivity]. Qed.

Lemma join_split sep s : join [sep] (split sep s) = s.
Proof.
  induction s as [|c s IH]; [reflexivity|]. cbn [split].
  pose proof (split_not_nil sep s) as Hnil.
  destruct (N.eqb_spec c sep) as [->|Hne].
  - rewrite join_cons, IH by exact Hnil. reflexivity.
  - destruct (split sep s) as [|w ws]; [congruence|].
    destruct ws as [|w' ws].
    + cbn [join] in *. rewrite IH. reflexivity.
    + rewrite join_cons in * by discriminate. rewrite <- IH. reflexivity.
Qed.

Lemma split_no_sep sep s : Forall (fun w => sep ∉ w) (split sep s).
Proof.
  induction s as [|c s IH]; cbn [split].
  - repeat constructor. apply not_elem_of_nil.
  - destruct (N.eqb_spec c sep) as [->|Hne].
    + constructor; [apply not_elem_of_nil | exact IH].
    + destruct (split sep s) as [|w ws]; [repeat constructor|].
      * rewrite elem_of_cons, elem_of_nil. intros [->|[]]. congruence.
      * apply Forall_cons in IH as [Hw Hws]. constructor; [|exact Hws].
        rewrite elem_of_cons. intros [->|Hin]; [congruence | exact (Hw Hin)].
Qed.

Lemma split_join sep parts :
  parts <> [] -> Forall (fun w => sep ∉ w) parts ->
  split sep (join [sep] parts) = parts.
Proof.
  intros Hne Hall. induction Hall as [|w ws Hw Hws IH]; [congruence|].
  clear Hne. destruct ws as [|w' ws].
  - cbn [join]. clear IH Hws. induction w as [|c w IHw]; [reflexivity|].
    cbn [split]. destruct (N.eqb_spec c sep) as [->|Hc].
    + exfalso. apply Hw. left.
    + rewrite IHw; [reflexivity|]. intros Hin. apply Hw. right. exact Hin.
  - specialize (IH ltac:(discriminate)).
    change (join [sep] (w :: w' :: ws))
      with (w ++ [sep] ++ join [sep] (w' :: ws)).
    induction w as [|c w IHw].
    + cbn [app split]. rewrite N.eqb_refl, IH. reflexivity.
    + cbn [app split]. destruct (N.eqb_spec c sep) as [->|Hc].
      * exfalso. apply Hw. left.
      * cbn [app] in IHw. rewrite IHw; [reflexivity|].
        intros Hin. apply Hw. right. exact Hin.
Qed.

Lemma split_elem_substring sep s w : w ∈ split sep s -> substring_of w s.
Proof.
  revert w. induction s as [|c s IH]; intros w; cbn [split].
  - rewrite elem_of_cons, elem_of_nil. intros [->|[]]. apply substring_of_refl.
  - destruct (N.eqb c sep).
    + rewrite elem_of_cons. intros [->|Hin].
      * exists [], (c :: s). reflexivity.
      * destruct (IH w Hin) as (p & q & ->). exists (c :: p), q. reflexivity.
    + destruct (split sep s) as [|w0 ws] eqn:Hs.
      * rewrite elem_of_cons, elem_of_nil. intros [->|[]].
        exists [], s. reflexivity.
      * rewrite elem_of_cons. intros [->|Hin].
        -- destruct (IH w0 ltac:(left)) as (p & q & Hpq).
           (* [w0] is the first piece: it starts [s] *)
           assert (Hpre : exists q', s = w0 ++ q').
           { clear IH Hpq. revert w0 ws Hs.
             induction s as [|d s IHs]; intros w0 ws Hs; cbn [split] in Hs.
             - injection Hs as <- <-. exists []. reflexivity.
             - destruct (N.eqb d sep).
               + injection Hs as <- <-. eexists. reflexivity.
               + destruct (split sep s) as [|w1 ws1] eqn:Hs1.
                 * injection Hs as <- <-. exists s. reflexivity.
                 * injection Hs as <- <-.
                   destruct (IHs w1 ws1 eq_refl) as (q' & ->).
                   exists q'. reflexivity. }
           destruct Hpre as (q' & ->). exists [], q'. reflexivity.
        -- destruct (IH w ltac:(right; exact Hin)) as (p & q & ->).
           exists (c :: p), q. reflexivity.
Qed.

Lemma lstrip_by_suffix p s :
  exists pre, s = pre ++ lstrip_by p s /\ Forall (fun c => p c = true) pre.
Proof.
  induction s as [|c s (pre & IH & Hpre)]; cbn [lstrip_by].
  - exists []. split; [reflexivity | constructor].
  - destruct (p c) eqn:Hc.
    + exists (c :: pre). split; [cbn [app]; f_equal; exact IH|].
      constructor; assumption.
    + exists []. split; [reflexivity | constructor].
Qed.

Lemma lstrip_by_head p s c : head (lstrip_by p s) = Some c -> p c = false.
Proof.
  induction s as [|d s IH]; cbn [lstrip_by]; [discriminate|].
  destruct (p d) eqn:Hd; [exact IH|]. intros [= <-]. exact Hd.
Qed.

Lemma rstrip_by_prefix p s :
  exists post, s = rstrip_by p s ++ post /\ Forall (fun c => p c = true) post.
Proof.
  unfold rstrip_by. destruct (lstrip_by_suffix p (rev s)) as (pre & Hs & Hpre).
  exists (rev pre). split.
  - rewrite <- rev_app_distr, <- Hs, rev_involutive. reflexivity.
  - apply Forall_rev. exact Hpre.
Qed.

Lemma last_rev (l : str) : last (rev l) = head l.
Proof. destruct l as [|x l]; [reflexivity|]. cbn [rev]. apply last_snoc. Qed.

Lemma rstrip_by_last p s c : last (rstrip_by p s) = Some c -> p c = false.
Proof.
  unfold rstrip_by. rewrite last_rev. apply lstrip_by_head.
Qed.

Lemma strip_substring s : substring_of (strip s) s.
Proof.
  unfold strip.
  destruct (lstrip_by_suffix isspace s) as (pre & Hs & _).
  destruct (rstrip_by_prefix isspace (lstrip_by isspace s)) as (post & Ht & _).
  exists pre, post. rewrite <- Ht. exact Hs.
Qed.

Lemma lstrip_substring chars s : substring_of (lstrip chars s) s.
Proof.
  unfold lstrip.
  destruct (lstrip_by_suffix (fun c => existsb (N.eqb c) chars) s)
    as (pre & Hs & _).
  exists pre, []. rewrite app_nil_r. exact Hs.
Qed.

Lemma existsb_eqb_elem (c : char) (chars : str) :
  existsb (N.eqb c) chars = true <-> c ∈ chars.
Proof.
  rewrite existsb_exists. split.
  - intros (x & Hin & Heq). apply N.eqb_eq in Heq as ->.
    apply list_elem_of_In. exact Hin.
  - intros Hin. exists c. split; [apply list_elem_of_In; exact Hin|].
    apply N.eqb_refl.
Qed.

Lemma lstrip_head chars s c : head (lstrip chars s) = Some c -> c ∉ chars.
Proof.
  intros Hh Hin. apply lstrip_by_head in Hh.
  apply existsb_eqb_elem in Hin. congruence.
Qed.

Lemma lstrip_by_last p s c :
  last (lstrip_by p s) = Some c -> last s = Some c.
Proof.
  destruct (lstrip_by_suffix p s) as (pre & Hs & _). intros Hl.
  rewrite Hs, last_app, Hl. reflexivity.
Qed.

(** The loop over the answer's lines keeps, in order, the cleaned lines
    longer than three characters. *)
Lemma parse_lines_filter lines acc :
  PerplexityOptimized.parse_lines lines acc =
  acc ++ filter (fun l => 3 < length l)
           (PerplexityOptimized.clean_line <$> lines).
Proof.
  revert acc. induction lines as [|line lines IH]; intros acc;
    cbn [PerplexityOptimized.parse_lines fmap list_fmap].
  - rewrite filter_nil, app_nil_r. reflexivity.
  - rewrite IH, filter_cons.
    destruct (decide (3 < length (PerplexityOptimized.clean_line line)))
      as [Hlen|Hlen].
    + assert (Hne : PerplexityOptimized.clean_line line <> []).
      { intros Heq. rewrite Heq in Hlen. cbn in Hlen. lia. }
      rewrite (bool_decide_eq_true_2 _ Hne).
      apply Nat.ltb_lt in Hlen. rewrite Hlen. cbn [andb].
      rewrite <- app_assoc. reflexivity.
    + destruct (bool_decide _); cbn [andb]; [|reflexivity].
      apply Nat.ltb_nlt in Hlen. rewrite Hlen. reflexivity.
Qed.

Lemma clean_line_substring line :
  substring_of (PerplexityOptimized.clean_line line) line.
Proof.
  unfold PerplexityOptimized.clean_line.
  eapply substring_of_trans; [apply lstrip_substring|].
  eapply substring_of_trans; [apply lstrip_substring|].
  apply strip_substring.
Qed.

Lemma clean_line_last line c :
  last (PerplexityOptimized.clean_line line) = Some c -> isspace c = false.
Proof.
  unfold PerplexityOptimized.clean_line, lstrip. intros Hl.
  do 2 apply lstrip_by_last in Hl.
  unfold strip in Hl. apply rstrip_by_last in Hl. exact Hl.
Qed.

(** X5. perplexity_optimized.py, [generate_queries], when the model
    answers: the usable lines of the answer are its lines, stripped of
    surrounding white space, of leading dashes and spaces and then of
    leading digits, dots and spaces, that are longer than three characters.
    The planner returns the first three of them in the order of the answer,
    or the three templated queries when there is none. Every usable line
    occurs in the answer as it is, contains no newline, does not begin with
    a digit, a dot or a space and does not end with white space. *)
Theorem X5_planner_keeps_usable_lines
    (lower : str -> str) {W : Type} (c : collaborators W) (w : W)
    (st : ReportState) (prompt response : str) :
  let run := exec c (PerplexityOptimized.generate_queries lower st) w in
  let usable :=
    filter (fun l => 3 < length l)
      (PerplexityOptimized.clean_line <$> split 10%N (strip response)) in
  calls_of run = [EvInvoke get_llm prompt (Ok response)] ->
  queries (merge st (value_of run)) =
    match usable with
    | [] => [ lower (user_input st) ++ lit " explained";
              lit "what is " ++ lower (user_input st);
              lit "how does " ++ lower (user_input st) ++ lit " work" ]
    | _ => take 3 usable
    end /\
  Forall (fun q =>
            3 < length q /\ (10%N ∉ q) /\ substring_of q response /\
            (forall ch, head q = Some ch -> ch ∉ lit "1234567890. ") /\
            (forall ch, last q = Some ch -> isspace ch = false))
         usable.
Proof.
  intros run usable Hcalls. split.
  - destruct (generate_queries_runs lower st _ _
                (exec_returns c (PerplexityOptimized.generate_queries lower st) w))
      as (ans & qs & Htr & Hu & _ & _ & Hok).
    fold run in Htr, Hu. rewrite Hcalls in Htr. injection Htr as _ <-.
    rewrite Hu. specialize (Hok response eq_refl). cbn zeta in Hok.
    rewrite parse_lines_filter in Hok. cbn [app] in Hok. fold usable in Hok.
    rewrite Hok. cbn [merge queries]. rewrite lookup_singleton_eq.
    destruct usable; reflexivity.
  - subst usable. apply Forall_forall. intros q Hq.
    apply list_elem_of_filter in Hq as [Hlen Hq].
    apply list_elem_of_fmap in Hq as (line & -> & Hline).
    pose proof (split_elem_substring _ _ _ Hline) as Hsub.
    pose proof (proj1 (Forall_forall _ _) (split_no_sep 10%N (strip response))
                  line Hline) as Hnl.
    split; [exact Hlen|]. split; [|split; [|split]].
    + intros Hin. apply Hnl.
      eapply substring_of_elem; [apply clean_line_substring | exact Hin].
    + eapply substring_of_trans; [apply clean_line_substring|].
      eapply substring_of_trans; [exact Hsub | apply strip_substring].
    + intros ch. unfold PerplexityOptimized.clean_line. apply lstrip_head.
    + apply clean_line_last.
Qed.

Lemma X5_witness :
  let st := initial_state Scenarios.question in
  let run := exec Scenarios.answering_models
               (PerplexityOptimized.generate_queries Scenarios.ascii_lower st)
               tt in
  calls_of run =
    [ EvInvoke get_llm (PerplexityOptimized.QUERY_PROMPT Scenarios.question)
        (Ok (lit "an answer")) ] /\
  queries (merge st (value_of run)) = [lit "an answer"].
Proof.
  intros st run. split; [reflexivity|].
  destruct (X5_planner_keeps_usable_lines Scenarios.ascii_lower
              Scenarios.answering_models tt st
              (PerplexityOptimized.QUERY_PROMPT Scenarios.question)
              (lit "an answer") eq_refl) as [Hq _].
  fold run in Hq. rewrite Hq. reflexivity.
Defined.

(** *** Decimal numbers *)

Lemma lit_String a s : lit (String a s) = N_of_ascii a :: lit s.
Proof. reflexivity. Qed.

Lemma lit_inj s1 s2 : lit s1 = lit s2 -> s1 = s2.
Proof.
  revert s2. induction s1 as [|a s1 IH]; intros [|b s2]; try discriminate.
  - reflexivity.
  - rewrite !lit_String. intros [= Hab Hs]. f_equal; [|apply IH; exact Hs].
    rewrite <- (ascii_N_embedding a), <- (ascii_N_embedding b), Hab.
    reflexivity.
Qed.

Lemma string_of_uint_digits d :
  Forall is_digit (lit (NilEmpty.string_of_uint d)).
Proof.
  induction d; cbn [NilEmpty.string_of_uint]; [constructor|..];
    rewrite lit_String; (constructor; [unfold is_digit; cbn; lia | assumption]).
Qed.

Lemma str_of_nat_digits n : Forall is_digit (str_of_nat n).
Proof. apply string_of_uint_digits. Qed.

Lemma str_of_nat_inj n m : str_of_nat n = str_of_nat m -> n = m.
Proof.
  unfold str_of_nat. intros H. apply lit_inj in H.
  assert (Hu : Nat.to_uint n = Nat.to_uint m).
  { apply (f_equal NilEmpty.uint_of_string) in H.
    rewrite !NilEmpty.usu in H. congruence. }
  apply (f_equal Nat.of_uint) in Hu.
  rewrite !DecimalNat.Unsigned.of_to in Hu. exact Hu.
Qed.

(** A run of digits is delimited by the first character that is not one. *)
Lemma digits_delimited (a b x y : str) (stop : char) :
  ~ is_digit stop -> Forall is_digit a -> Forall is_digit b ->
  a ++ stop :: x = b ++ stop :: y -> a = b.
Proof.
  intros Hstop Ha. revert b. induction Ha as [|c a Hc Ha IH]; intros b Hb Heq.
  - destruct Hb as [|d b Hd Hb]; [reflexivity|].
    cbn [app] in Heq. injection Heq as <- _. contradiction.
  - destruct Hb as [|d b Hd Hb]; cbn [app] in Heq.
    + injection Heq as -> _. contradiction.
    + injection Heq as -> Heq. f_equal. apply IH; assumption.
Qed.

Lemma enumerate_index_ge {A : Type} (l : list A) start i x :
  (i, x) ∈ enumerate start l -> start <= i.
Proof.
  revert start. induction l as [|y l IH]; intros start; cbn [enumerate].
  - intros Hin. apply elem_of_nil in Hin. destruct Hin.
  - rewrite elem_of_cons. intros [[= -> _]|Hin]; [lia|].
    apply IH in Hin. lia.
Qed.

Lemma enumerate_elem {A : Type} (l : list A) start i x :
  (i, x) ∈ enumerate start l -> x ∈ l.
Proof.
  revert start. induction l as [|y l IH]; intros start; cbn [enumerate].
  - intros Hin. apply elem_of_nil in Hin. destruct Hin.
  - rewrite !elem_of_cons. intros [[= _ ->]|Hin]; [left; reflexivity|].
    right. eapply IH. exact Hin.
Qed.

(** Entries that begin with a bracketed number are pairwise different when
    they are numbered with [enumerate]. *)
Lemma numbered_entries_NoDup {A : Type} (f rest : nat -> A -> str)
    (l : list A) start :
  (forall i x, f i x = lit "[" ++ str_of_nat i ++ 93%N :: rest i x) ->
  NoDup (List.map (fun '(i, x) => f i x) (enumerate start l)).
Proof.
  intros Hf. revert start. induction l as [|x l IH]; intros start;
    cbn [enumerate List.map]; [apply NoDup_nil_2|].
  apply NoDup_cons_2; [|apply IH].
  intros Hin. apply list_elem_of_In, in_map_iff in Hin as ([i y] & Heq & Hin).
  apply list_elem_of_In, enumerate_index_ge in Hin.
  rewrite !Hf in Heq. injection Heq as Heq.
  apply digits_delimited in Heq;
    [| unfold is_digit; lia | apply str_of_nat_digits..].
  apply str_of_nat_inj in Heq. lia.
Qed.

(** X6. The numbered entries the final synthesizers build are pairwise
    different, even for results that are equal: the reference entries and
    the prompt sections of perplexity.py, and the prompt sections of
    perplexity_optimized.py, each begin with their own number in brackets. *)
Theorem X6_numbered_entries_are_distinct (rs : list QueryResult) :
  NoDup (Perplexity.ref_parts rs) /\
  NoDup (Perplexity.body_parts rs) /\
  NoDup (PerplexityOptimized.search_context rs).
Proof.
  split; [|split].
  - apply (numbered_entries_NoDup _
             (fun _ res => lit " - [" ++ title res ++ lit "](" ++ url res ++
                           lit ")")).
    reflexivity.
  - apply (numbered_entries_NoDup _
             (fun _ res => nl ++ lit "Title: " ++ title res ++ nl ++
                           lit "URL: " ++ url res ++ nl ++
                           lit "Content: " ++ resume res ++ nl ++
                           lit "----------------" ++ nl)).
    reflexivity.
  - apply (numbered_entries_NoDup _
             (fun _ res => lit " " ++ title res ++ lit ": " ++ resume res)).
    reflexivity.
Qed.

Lemma ref_parts_from start rs :
  List.map (fun '(idx, res) => Perplexity.ref_part idx res) (enumerate start rs)
  = List.map (fun '(idx, res) => Perplexity.ref_part idx res)
      (enumerate start
         (List.map (fun r => mkQueryResult (title r) (url r) []) rs)).
Proof.
  revert start. induction rs as [|r rs IH]; intros start; [reflexivity|].
  cbn [List.map enumerate]. rewrite IH. reflexivity.
Qed.

Lemma ref_part_no_newline idx res :
  10%N ∉ title res -> 10%N ∉ url res -> 10%N ∉ Perplexity.ref_part idx res.
Proof.
  intros Ht Hu. unfold Perplexity.ref_part.
  rewrite !elem_of_app. intros [H|[H|[H|[H|[H|[H|H]]]]]];
    try (apply list_elem_of_In in H; cbn in H; intuition discriminate);
    try contradiction.
  pose proof (proj1 (Forall_forall _ _) (str_of_nat_digits idx) _ H) as Hd.
  unfold is_digit in Hd. lia.
Qed.

(** X7. perplexity.py, [final_writer]: the reference list does not depend
    on the summaries (it is the list built from the titles and URLs
    alone), and when no title or URL contains a newline the text of the
    list, cut at its newlines, gives back exactly the entries, one per
    result. *)
Theorem X7_reference_list_reads_back (rs : list QueryResult) :
  rs <> [] ->
  Forall (fun r => (10%N ∉ title r) /\ (10%N ∉ url r)) rs ->
  Perplexity.ref_parts rs =
    Perplexity.ref_parts
      (List.map (fun r => mkQueryResult (title r) (url r) []) rs) /\
  split 10%N (join nl (Perplexity.ref_parts rs)) = Perplexity.ref_parts rs /\
  length (split 10%N (join nl (Perplexity.ref_parts rs))) = length rs.
Proof.
  intros Hne Hall.
  assert (Hround : split 10%N (join nl (Perplexity.ref_parts rs))
                   = Perplexity.ref_parts rs).
  { apply split_join.
    - destruct rs; [congruence | discriminate].
    - unfold Perplexity.ref_parts. rewrite List.Forall_map.
      apply Forall_forall. intros [idx res] Hin.
      apply enumerate_elem in Hin.
      destruct (proj1 (Forall_forall _ _) Hall res Hin) as [Ht Hu].
      apply ref_part_no_newline; assumption. }
  split; [apply ref_parts_from|]. split; [exact Hround|].
  rewrite Hround. apply enumerate_map_length.
Qed.

Lemma X7_witness :
  [Scenarios.a_result] <> [] /\
  Forall (fun r => (10%N ∉ title r) /\ (10%N ∉ url r)) [Scenarios.a_result] /\
  split 10%N (join nl (Perplexity.ref_parts [Scenarios.a_result])) =
    [lit "[1] - [Photosynthesis](https://example.org/p)"].
Proof.
  assert (Hne : [Scenarios.a_result] <> []) by discriminate.
  assert (Hall : Forall (fun r => (10%N ∉ title r) /\ (10%N ∉ url r))
                   [Scenarios.a_result]).
  { constructor; [|constructor].
    split; intros H; apply list_elem_of_In in H; vm_compute in H;
      repeat (destruct H as [H|H]; [discriminate H|]); exact H. }
  split; [exact Hne|]. split; [exact Hall|].
  destruct (X7_reference_list_reads_back [Scenarios.a_result] Hne Hall)
    as (_ & Hround & _).
  rewrite Hround. reflexivity.
Defined.

(* ===================================================================== *)
(** ** utils.py: properties                                              *)
(* ===================================================================== *)

Lemma dict_set_keys key v d :
  (Utils.dict_set key v d).*1 =
  if decide (key ∈ d.*1) then d.*1 else d.*1 ++ [key].
Proof.
  induction d as [|[k v'] d IH]; cbn [Utils.dict_set fmap list_fmap fst].
  - rewrite decide_False by apply not_elem_of_nil. reflexivity.
  - destruct (decide (k = key)) as [->|Hne].
    + rewrite decide_True by left. reflexivity.
    + cbn [fmap list_fmap fst]. rewrite IH.
      destruct (decide (key ∈ d.*1)) as [Hin|Hnin].
      * rewrite decide_True by (right; exact Hin). reflexivity.
      * rewrite decide_False; [reflexivity|].
        rewrite elem_of_cons. intros [->|Hin]; [congruence | contradiction].
Qed.

Lemma dict_set_elem key v d k x :
  NoDup (d.*1) ->
  (k, x) ∈ Utils.dict_set key v d ->
  (k = key /\ x = v) \/ (k <> key /\ (k, x) ∈ d).
Proof.
  induction d as [|[k' v'] d IH]; cbn [Utils.dict_set fmap list_fmap fst];
    intros Hnd.
  - rewrite elem_of_cons, elem_of_nil. intros [[= -> ->]|[]]. left. auto.
  - apply NoDup_cons in Hnd as [Hk' Hnd].
    destruct (decide (k' = key)) as [->|Hne].
    + rewrite elem_of_cons. intros [[= -> ->]|Hin]; [left; auto|].
      right. split; [|right; exact Hin]. intros ->.
      apply Hk'. apply list_elem_of_fmap. exists (key, x). auto.
    + rewrite elem_of_cons. intros [[= -> ->]|Hin].
      * right. split; [exact Hne | left].
      * destruct (IH Hnd Hin) as [Hl|[Hk Hr]]; [left; exact Hl|].
        right. split; [exact Hk | right; exact Hr].
Qed.

Lemma dict_set_NoDup key v d :
  NoDup (d.*1) -> NoDup ((Utils.dict_set key v d).*1).
Proof.
  intros Hnd. rewrite dict_set_keys.
  destruct (decide (key ∈ d.*1)) as [Hin|Hnin]; [exact Hnd|].
  apply NoDup_app. split; [exact Hnd|]. split.
  - intros k Hk. rewrite elem_of_cons, elem_of_nil. intros [->|[]].
    contradiction.
  - apply NoDup_singleton.
Qed.

Lemma by_url_urls sources d d' :
  Utils.by_url sources d = Ok d' ->
  Forall (fun s => is_Some (hit_url s)) sources /\
  d'.*1 = fold_left (fun ks u => if decide (u ∈ ks) then ks else ks ++ [u])
            (omap hit_url sources) (d.*1).
Proof.
  revert d. induction sources as [|src rest IH]; intros d;
    cbn [Utils.by_url omap list_omap fold_left].
  - intros [= ->]. split; [constructor | reflexivity].
  - destruct (hit_url src) as [u|] eqn:Hu; [|discriminate].
    intros H. apply IH in H as [Hall Hkeys]. split.
    + constructor; [rewrite Hu; eauto | exact Hall].
    + rewrite Hkeys, dict_set_keys. reflexivity.
Qed.

Lemma by_url_last sources d d' :
  Utils.by_url sources d = Ok d' -> NoDup (d.*1) ->
  NoDup (d'.*1) /\
  forall k x, (k, x) ∈ d' ->
    ((k, x) ∈ d /\ Forall (fun s => hit_url s <> Some k) sources) \/
    (exists before after,
       sources = before ++ x :: after /\ hit_url x = Some k /\
       Forall (fun s => hit_url s <> Some k) after).
Proof.
  revert d. induction sources as [|src rest IH]; intros d;
    cbn [Utils.by_url].
  - intros [= ->] Hnd. split; [exact Hnd|]. intros k x Hin. left.
    split; [exact Hin | constructor].
  - destruct (hit_url src) as [u|] eqn:Hu; [|discriminate].
    intros H Hnd.
    destruct (IH _ H (dict_set_NoDup u src d Hnd)) as [Hnd' Hel].
    split; [exact Hnd'|]. intros k x Hin.
    destruct (Hel k x Hin) as [[Hd Hrest]|(before & after & -> & Hx & Hafter)].
    + destruct (dict_set_elem _ _ _ _ _ Hnd Hd) as [[-> ->]|[Hk Hd']].
      * right. exists [], rest. auto.
      * left. split; [exact Hd'|]. constructor; [congruence | exact Hrest].
    + right. exists (src :: before), after. auto.
Qed.

Lemma first_occurrences (urls : list str) :
  fold_left (fun ks u => if decide (u ∈ ks) then ks else ks ++ [u]) urls []
  = reverse (remove_dups (reverse urls)) /\
  forall u,
    u ∈ fold_left (fun ks u => if decide (u ∈ ks) then ks else ks ++ [u])
          urls [] <-> u ∈ urls.
Proof.
  induction urls as [|u urls [IH Hel]] using rev_ind.
  - split; [reflexivity|]. intros u. reflexivity.
  - rewrite fold_left_app. cbn [fold_left].
    rewrite reverse_app, reverse_singleton. cbn [app remove_dups].
    assert (Hiff : u ∈ reverse urls <-> u ∈
              fold_left (fun ks u => if decide (u ∈ ks) then ks else ks ++ [u])
                urls []).
    { rewrite elem_of_reverse, Hel. reflexivity. }
    destruct (decide (u ∈ fold_left _ urls [])) as [Hin|Hnin];
      destruct (decide_rel elem_of u (reverse urls)) as [Hr|Hr];
      try (exfalso; tauto).
    + split; [exact IH|].
      intros u'. rewrite Hel, elem_of_app, elem_of_cons, elem_of_nil.
      split; [auto|]. intros [H|[->|[]]]; [exact H | apply Hel; exact Hin].
    + split; [rewrite reverse_cons, IH; reflexivity|].
      intros u'. rewrite !elem_of_app, Hel. reflexivity.
Qed.

(** X8. utils.py, [deduplicate_and_format_sources]: the dict built from the
    sources has one entry per URL; its URLs are those of the sources, in
    the order in which each first occurs; the source kept for a URL is the
    last one with that URL; there are never more entries than sources. *)
Theorem X8_sources_are_deduplicated_by_url
    (sources : list hit) (unique : list (str * hit)) :
  Utils.by_url sources [] = Ok unique ->
  NoDup (unique.*1) /\
  unique.*1 = reverse (remove_dups (reverse (omap hit_url sources))) /\
  (forall u, u ∈ unique.*1 <-> exists s, s ∈ sources /\ hit_url s = Some u) /\
  length unique <= length sources /\
  (forall k x, (k, x) ∈ unique ->
     exists before after,
       sources = before ++ x :: after /\ hit_url x = Some k /\
       Forall (fun s => hit_url s <> Some k) after).
Proof.
  intros H.
  destruct (by_url_last _ _ _ H (NoDup_nil_2)) as [Hnd Hlast].
  destruct (by_url_urls _ _ _ H) as [_ Hkeys].
  destruct (first_occurrences (omap hit_url sources)) as [Hfirst Hel].
  cbn [fmap list_fmap] in Hkeys.
  assert (Hiff : forall u,
             u ∈ unique.*1 <-> exists s, s ∈ sources /\ hit_url s = Some u).
  { intros u. rewrite Hkeys, Hel. apply list_elem_of_omap. }
  split; [exact Hnd|]. split; [rewrite Hkeys; exact Hfirst|].
  split; [exact Hiff|]. split.
  - rewrite <- (length_fmap fst unique).
    etransitivity; [|apply (omap_length_le hit_url sources)].
    apply submseteq_length, NoDup_submseteq; [exact Hnd|].
    intros u Hu. rewrite Hkeys in Hu. apply Hel. exact Hu.
  - intros k x Hin.
    destruct (Hlast k x Hin) as [[Hnil _]|Hex]; [|exact Hex].
    apply elem_of_nil in Hnil. destruct Hnil.
Qed.

Lemma X8_witness :
  Utils.by_url UtilsScenarios.three_sources [] =
    Ok [ (lit "https://a.example", UtilsScenarios.new_page);
         (lit "https://b.example", UtilsScenarios.other_page) ] /\
  NoDup [lit "https://a.example"; lit "https://b.example"].
Proof.
  assert (H : Utils.by_url UtilsScenarios.three_sources [] =
                Ok [ (lit "https://a.example", UtilsScenarios.new_page);
                     (lit "https://b.example", UtilsScenarios.other_page) ])
    by (vm_compute; reflexivity).
  split; [exact H|].
  exact (proj1 (X8_sources_are_deduplicated_by_url _ _ H)).
Defined.

Lemma format_loop_ok max inc sources lines :
  Forall (fun s => is_Some (hit_title s) /\ is_Some (hit_url s) /\
                   is_Some (hit_content s)) sources <->
  exists out, Utils.format_loop max inc sources lines = Ok out.
Proof.
  revert lines. induction sources as [|src rest IH]; intros lines;
    cbn [Utils.format_loop].
  - split; [eauto | constructor].
  - unfold Utils.source_lines.
    destruct (hit_title src) as [t|] eqn:Ht;
      [destruct (hit_url src) as [u|] eqn:Hu;
       [destruct (hit_content src) as [ct|] eqn:Hc|]|].
    + rewrite <- IH. split.
      * intros Hall. apply Forall_cons in Hall as [_ Hall]. exact Hall.
      * intros Hall. constructor; [|exact Hall].
        rewrite Ht, Hu, Hc. eauto.
    + split; [|intros [out [=]]].
      intros Hall. apply Forall_cons in Hall as [(_ & _ & [x Hx]) _].
      congruence.
    + split; [|intros [out [=]]].
      intros Hall. apply Forall_cons in Hall as [(_ & [x Hx] & _) _].
      congruence.
    + split; [|intros [out [=]]].
      intros Hall. apply Forall_cons in Hall as [([x Hx] & _) _].
      congruence.
Qed.

Lemma by_url_raises sources d :
  (exists s, s ∈ sources /\ hit_url s = None) ->
  Utils.by_url sources d = Raise (lit "'url'").
Proof.
  revert d. induction sources as [|src rest IH]; intros d (s & Hin & Hs).
  - apply elem_of_nil in Hin. destruct Hin.
  - cbn [Utils.by_url]. apply elem_of_cons in Hin as [->|Hin].
    + rewrite Hs. reflexivity.
    + destruct (hit_url src); [|reflexivity]. apply IH. eauto.
Qed.

Lemma by_url_total sources d :
  Forall (fun s => is_Some (hit_url s)) sources ->
  exists d', Utils.by_url sources d = Ok d'.
Proof.
  revert d. induction sources as [|src rest IH]; intros d Hall;
    cbn [Utils.by_url]; [eauto|].
  apply Forall_cons in Hall as [[u Hu] Hall]. rewrite Hu. apply IH. exact Hall.
Qed.

(** X9. utils.py, [deduplicate_and_format_sources], on a response dict or
    a list of them: a source without [url] makes the call raise
    [KeyError('url')], wherever it stands. When every source has a URL, the
    call returns exactly when every source kept after deduplication has a
    title and a content: a source that lacks one of them does no harm if a
    later source has the same URL. *)
Theorem X9_format_raises_on_missing_keys
    (sr : Utils.search_response) (sources : list hit) (max : Z) (inc : bool) :
  match sr with
  | Utils.a_dict resp => sources = Utils.get_results resp
  | Utils.a_list resps => sources = flat_map Utils.get_results resps
  | Utils.another_value => False
  end ->
  ((exists s, s ∈ sources /\ hit_url s = None) ->
   Utils.deduplicate_and_format_sources sr max inc = Raise (lit "'url'")) /\
  (Forall (fun s => is_Some (hit_url s)) sources ->
   exists unique,
     Utils.by_url sources [] = Ok unique /\
     (Forall (fun s => is_Some (hit_title s) /\ is_Some (hit_content s))
             (unique.*2) <->
      exists out, Utils.deduplicate_and_format_sources sr max inc = Ok out)).
Proof.
  intros Hsr.
  assert (Hdef : Utils.deduplicate_and_format_sources sr max inc =
                 match Utils.by_url sources [] with
                 | Raise e => Raise e
                 | Ok unique =>
                     match Utils.format_loop max inc (unique.*2)
                             [lit "Sources:" ++ nl] with
                     | Raise e => Raise e
                     | Ok lines => Ok (strip (join nl lines))
                     end
                 end).
  { unfold Utils.deduplicate_and_format_sources.
    destruct sr; [subst; reflexivity.. | destruct Hsr]. }
  split.
  - intros Hex. rewrite Hdef, (by_url_raises _ _ Hex). reflexivity.
  - intros Hall. destruct (by_url_total sources [] Hall) as [unique Hu].
    exists unique. split; [exact Hu|]. rewrite Hdef, Hu.
    assert (Hurl : Forall (fun s => is_Some (hit_url s)) (unique.*2)).
    { apply Forall_forall. intros x Hx.
      apply list_elem_of_fmap in Hx as ([k x'] & -> & Hin).
      destruct (by_url_last _ _ _ Hu NoDup_nil_2) as [_ Hlast].
      destruct (Hlast k x' Hin) as [[Hnil _]|(b & a & _ & Hk & _)].
      - apply elem_of_nil in Hnil. destruct Hnil.
      - cbn [snd]. rewrite Hk. eauto. }
    split.
    + intros Htc.
      assert (Hok : exists out,
                 Utils.format_loop max inc (unique.*2) [lit "Sources:" ++ nl]
                 = Ok out).
      { apply format_loop_ok. apply Forall_forall. intros x Hx.
        pose proof (proj1 (Forall_forall _ _) Htc x Hx) as [Ht Hc].
        pose proof (proj1 (Forall_forall _ _) Hurl x Hx) as Hux. auto. }
      destruct Hok as [lines ->]. eauto.
    + intros [out Hout].
      destruct (Utils.format_loop max inc (unique.*2) [lit "Sources:" ++ nl])
        as [lines|e] eqn:Hloop; [|discriminate].
      assert (Hall3 := proj2 (format_loop_ok max inc (unique.*2)
                                [lit "Sources:" ++ nl])
                         (ex_intro _ lines Hloop)).
      eapply Forall_impl; [exact Hall3|]. intros x (Ht & _ & Hc). auto.
Qed.

Lemma X9_witness :
  let sources := [UtilsScenarios.untitled_page; UtilsScenarios.new_page] in
  let sr := Utils.a_dict (mkResponse (Some sources)) in
  sources = Utils.get_results (mkResponse (Some sources)) /\
  Forall (fun s => is_Some (hit_url s)) sources /\
  exists out, Utils.deduplicate_and_format_sources sr 2048 false = Ok out.
Proof.
  intros sources sr.
  assert (Hall : Forall (fun s => is_Some (hit_url s)) sources)
    by (repeat constructor; eexists; reflexivity).
  split; [reflexivity|]. split; [exact Hall|].
  destruct (X9_format_raises_on_missing_keys sr sources 2048 false eq_refl)
    as [_ H].
  destruct (H Hall) as (unique & Hu & Hiff).
  apply Hiff. vm_compute in Hu. injection Hu as <-.
  repeat constructor; eexists; reflexivity.
Defined.

Lemma slice_to_prefix n s : exists dropped, s = Utils.slice_to n s ++ dropped.
Proof.
  unfold Utils.slice_to. destruct (n <? 0)%Z; eexists;
    symmetry; apply take_drop.
Qed.

(** X10. utils.py, [deduplicate_and_format_sources]: the excerpt of a raw
    content is the raw content itself when it has at most [limit]
    characters; otherwise it is a beginning of the raw content followed by
    the truncation mark, and for a limit that is not negative that
    beginning has exactly [limit] characters, so the excerpt has
    [limit + 15]. *)
Theorem X10_raw_content_excerpt (limit : Z) (raw : str) :
  ((Z.of_nat (length raw) <= limit)%Z -> Utils.snippet limit raw = raw) /\
  ((limit < Z.of_nat (length raw))%Z ->
   exists kept dropped,
     raw = kept ++ dropped /\
     Utils.snippet limit raw = kept ++ lit "... [truncated]" /\
     ((0 <= limit)%Z ->
      length kept = Z.to_nat limit /\
      length (Utils.snippet limit raw) = Z.to_nat limit + 15)).
Proof.
  unfold Utils.snippet. split; intros Hlen.
  - apply Z.ltb_ge in Hlen. rewrite Hlen. reflexivity.
  - pose proof Hlen as Hlt. apply Z.ltb_lt in Hlt. rewrite Hlt.
    destruct (slice_to_prefix limit raw) as [dropped Hraw].
    exists (Utils.slice_to limit raw), dropped.
    split; [exact Hraw|]. split; [reflexivity|]. intros Hpos.
    assert (Hkept : length (Utils.slice_to limit raw) = Z.to_nat limit).
    { unfold Utils.slice_to. apply Z.ltb_ge in Hpos. rewrite Hpos.
      rewrite length_take. lia. }
    split; [exact Hkept|]. rewrite length_app, Hkept. reflexivity.
Qed.

Lemma X10_witness :
  (Z.of_nat (length (lit "0123456789")) <= 10)%Z /\
  (4 < Z.of_nat (length (lit "0123456789")))%Z /\
  Utils.snippet 10 (lit "0123456789") = lit "0123456789" /\
  exists kept dropped,
    lit "0123456789" = kept ++ dropped /\
    Utils.snippet 4 (lit "0123456789") = kept ++ lit "... [truncated]".
Proof.
  assert (H1 : (Z.of_nat (length (lit "0123456789")) <= 10)%Z)
    by (vm_compute; discriminate).
  assert (H2 : (4 < Z.of_nat (length (lit "0123456789")))%Z)
    by (vm_compute; reflexivity).
  split; [exact H1|]. split; [exact H2|]. split.
  - exact (proj1 (X10_raw_content_excerpt 10 (lit "0123456789")) H1).
  - destruct (proj2 (X10_raw_content_excerpt 4 (lit "0123456789")) H2)
      as (kept & dropped & Hraw & Hsnip & _).
    exists kept, dropped. split; assumption.
Defined.

Lemma lstrip_by_app_stop p a b c b' :
  b = c :: b' -> p c = false -> lstrip_by p (a ++ b) = lstrip_by p a ++ b.
Proof.
  intros -> Hc. induction a as [|d a IH]; cbn [app lstrip_by].
  - rewrite Hc. reflexivity.
  - destruct (p d); [exact IH | reflexivity].
Qed.

Lemma rstrip_by_app_keep p x y c :
  last x = Some c -> p c = false ->
  rstrip_by p (x ++ y) = x ++ rstrip_by p y.
Proof.
  intros Hlast Hc. apply last_Some in Hlast as [x' ->].
  unfold rstrip_by. rewrite (rev_app_distr (x' ++ [c]) y).
  rewrite (lstrip_by_app_stop p (rev y) (rev (x' ++ [c])) c (rev x')).
  - rewrite rev_app_distr, rev_involutive. reflexivity.
  - rewrite rev_app_distr. reflexivity.
  - exact Hc.
Qed.

Lemma join_app_substring sep a b c :
  substring_of (join sep b) (join sep (a ++ b ++ c)).
Proof.
  destruct b as [|b0 b]; [exists [], (join sep (a ++ c)); reflexivity|].
  assert (Hpre : forall x l, l <> [] ->
            join sep (x ++ l) = join sep x ++
              (match x with [] => [] | _ => sep end) ++ join sep l).
  { intros x l Hl. induction x as [|x0 x IH]; [reflexivity|].
    cbn [app]. destruct x as [|x1 x].
    - cbn [app]. rewrite join_cons by exact Hl. reflexivity.
    - rewrite join_cons by discriminate. rewrite IH.
      rewrite (join_cons sep x0 (x1 :: x)) by discriminate.
      rewrite <- !app_assoc. reflexivity. }
  destruct c as [|c0 c].
  - rewrite app_nil_r, Hpre by discriminate.
    exists (join sep a ++ match a with [] => [] | _ => sep end), [].
    rewrite app_nil_r, <- app_assoc. reflexivity.
  - rewrite (Hpre a ((b0 :: b) ++ c0 :: c)) by discriminate.
    rewrite (Hpre (b0 :: b) (c0 :: c)) by discriminate.
    exists (join sep a ++ match a with [] => [] | _ => sep end),
           (sep ++ join sep (c0 :: c)).
    rewrite <- !app_assoc. reflexivity.
Qed.

Lemma format_loop_blocks max inc sources lines out :
  Utils.format_loop max inc sources lines = Ok out ->
  exists blocks,
    Forall2 (fun s b => Utils.source_lines max inc s = Ok b) sources blocks /\
    out = lines ++ concat blocks.
Proof.
  revert lines. induction sources as [|src rest IH]; intros lines;
    cbn [Utils.format_loop].
  - intros [= <-]. exists []. split; [constructor|].
    cbn. rewrite app_nil_r. reflexivity.
  - destruct (Utils.source_lines max inc src) as [new|e] eqn:Hsrc;
      [|discriminate].
    intros H. apply IH in H as (blocks & Hall & ->).
    exists (new :: blocks). split; [constructor; assumption|].
    cbn [concat]. rewrite <- app_assoc. reflexivity.
Qed.

Lemma strip_from_nonspace s a :
  head s = Some a -> isspace a = false -> strip s = rstrip_by isspace s.
Proof.
  intros Hh Ha. unfold strip. f_equal.
  destruct s as [|b s]; [discriminate|]. injection Hh as ->.
  cbn [lstrip_by]. rewrite Ha. reflexivity.
Qed.

Lemma source_lines_ok max inc src b :
  Utils.source_lines max inc src = Ok b ->
  exists t u c full,
    hit_title src = Some t /\ hit_url src = Some u /\
    hit_content src = Some c /\
    b = [ lit "Source " ++ t ++ lit ":" ++ nl ++ lit "===";
          lit "URL: " ++ u ++ nl ++ lit "===";
          lit "Most relevant content: " ++ c ++ nl ++ lit "===" ] ++ full.
Proof.
  unfold Utils.source_lines.
  destruct (hit_title src) as [t|]; [|discriminate].
  destruct (hit_url src) as [u|]; [|discriminate].
  destruct (hit_content src) as [c|]; [|discriminate].
  intros [= <-]. exists t, u, c. eexists. repeat split; reflexivity.
Qed.

(** X11. utils.py, [deduplicate_and_format_sources], when it returns: the
    text begins with [Sources:], does not end with white space, and is
    [Sources:] alone when there is no source. For every source kept after
    deduplication the text holds its block: the title line, the URL line
    and the content line, each followed by [===], in that order. *)
Theorem X11_formatted_sources_text
    (sr : Utils.search_response) (max : Z) (inc : bool) (out : str) :
  let sources :=
    match sr with
    | Utils.a_dict resp => Utils.get_results resp
    | Utils.a_list resps => flat_map Utils.get_results resps
    | Utils.another_value => []
    end in
  Utils.deduplicate_and_format_sources sr max inc = Ok out ->
  (exists rest, out = lit "Sources:" ++ rest) /\
  (forall ch, last out = Some ch -> isspace ch = false) /\
  (sources = [] -> out = lit "Sources:") /\
  exists unique,
    Utils.by_url sources [] = Ok unique /\
    forall k src, (k, src) ∈ unique ->
      exists t c,
        hit_title src = Some t /\ hit_content src = Some c /\
        substring_of
          (join nl [ lit "Source " ++ t ++ lit ":" ++ nl ++ lit "===";
                     lit "URL: " ++ k ++ nl ++ lit "===";
                     lit "Most relevant content: " ++ c ++ nl ++ lit "===" ])
          out.
Proof.
  intros sources Hout.
  assert (Hdef : Utils.deduplicate_and_format_sources sr max inc =
                 match Utils.by_url sources [] with
                 | Raise e => Raise e
                 | Ok unique =>
                     match Utils.format_loop max inc (unique.*2)
                             [lit "Sources:" ++ nl] with
                     | Raise e => Raise e
                     | Ok lines => Ok (strip (join nl lines))
                     end
                 end).
  { unfold Utils.deduplicate_and_format_sources, sources.
    destruct sr; [reflexivity..|]. discriminate Hout. }
  rewrite Hdef in Hout.
  destruct (Utils.by_url sources []) as [unique|] eqn:Hu; [|discriminate].
  destruct (Utils.format_loop max inc (unique.*2) [lit "Sources:" ++ nl])
    as [lines|] eqn:Hloop; [|discriminate].
  injection Hout as <-.
  apply format_loop_blocks in Hloop as (blocks & Hall & ->).
  set (J := join nl ([lit "Sources:" ++ nl] ++ concat blocks)).
  assert (HJ : exists J', J = lit "Sources:" ++ J').
  { unfold J. cbn [app]. destruct (concat blocks) as [|l ls].
    - exists nl. reflexivity.
    - rewrite join_cons by discriminate. rewrite <- app_assoc. eauto. }
  destruct HJ as [J' HJ].
  assert (Hstrip : strip J = lit "Sources:" ++ rstrip_by isspace J').
  { rewrite (strip_from_nonspace J 83%N); [| rewrite HJ; reflexivity
                                           | reflexivity].
    rewrite HJ. apply (rstrip_by_app_keep _ _ _ 58%N); reflexivity. }
  change (join nl ([lit "Sources:" ++ nl] ++ concat blocks)) with J.
  split; [rewrite Hstrip; eauto|]. split; [|split].
  - intros ch. unfold strip. apply rstrip_by_last.
  - intros Hnil. rewrite Hnil in Hu. injection Hu as <-.
    inversion Hall; subst. reflexivity.
  - exists unique. split; [reflexivity|]. intros k src Hin.
    destruct (by_url_last _ _ _ Hu NoDup_nil_2) as [_ Hlast].
    destruct (Hlast k src Hin) as [[Hnil _]|(_ & _ & _ & Hk & _)];
      [apply elem_of_nil in Hnil; destruct Hnil|].
    assert (Hsrc : src ∈ unique.*2).
    { apply list_elem_of_fmap. exists (k, src). auto. }
    apply list_elem_of_split in Hsrc as (s1 & s2 & Hs).
    rewrite Hs in Hall.
    apply Forall2_app_inv_l in Hall as (b1 & b2' & _ & Hb & ->).
    apply Forall2_cons_inv_l in Hb as (b & b2 & Hb & _ & ->).
    apply source_lines_ok in Hb as (t & u & c & full & Ht & Hu' & Hc & ->).
    assert (u = k) by congruence. subst u.
    exists t, c. split; [exact Ht|]. split; [exact Hc|].
    set (B := join nl [ lit "Source " ++ t ++ lit ":" ++ nl ++ lit "===";
                        lit "URL: " ++ k ++ nl ++ lit "===";
                        lit "Most relevant content: " ++ c ++ nl ++ lit "===" ]).
    assert (HB : substring_of B J).
    { unfold J, B. rewrite concat_app. cbn [concat].
      rewrite <- !app_assoc.
      rewrite (app_assoc [lit "Sources:" ++ nl] (concat b1)).
      apply join_app_substring. }
    destruct HB as (P & Q & HPQ).
    assert (Hlast' : last (P ++ B) = Some 61%N).
    { unfold B. cbn [join]. rewrite !app_assoc, last_app. reflexivity. }
    assert (Hhead : head J = Some 83%N) by (rewrite HJ; reflexivity).
    rewrite (strip_from_nonspace J 83%N Hhead eq_refl).
    rewrite HPQ, app_assoc.
    rewrite (rstrip_by_app_keep _ _ _ 61%N Hlast' eq_refl).
    exists P, (rstrip_by isspace Q). rewrite <- app_assoc. reflexivity.
Qed.

Lemma X11_witness :
  let sr := Utils.a_dict (mkResponse (Some UtilsScenarios.three_sources)) in
  exists out,
    Utils.deduplicate_and_format_sources sr 2048 true = Ok out /\
    exists rest, out = lit "Sources:" ++ rest.
Proof.
  intros sr.
  destruct (Utils.deduplicate_and_format_sources sr 2048 true) as [out|e] eqn:H;
    [|vm_compute in H; discriminate H].
  exists out. split; [reflexivity|].
  exact (proj1 (X11_formatted_sources_text sr 2048 true out H)).
Defined.

Lemma bullets_ok sources bs :
  Utils.bullets sources = Ok bs ->
  Forall2 (fun s l => exists t u,
             hit_title s = Some t /\ hit_url s = Some u /\
             l = lit "* " ++ t ++ lit " : " ++ u) sources bs.
Proof.
  revert bs. induction sources as [|src rest IH]; intros bs;
    cbn [Utils.bullets].
  - intros [= <-]. constructor.
  - unfold Utils.bullet.
    destruct (hit_title src) as [t|] eqn:Ht; [|discriminate].
    destruct (hit_url src) as [u|] eqn:Hu; [|discriminate].
    destruct (Utils.bullets rest) as [bs'|]; [|discriminate].
    intros [= <-]. constructor; [eauto | apply IH; reflexivity].
Qed.

Lemma bullets_total sources :
  Forall (fun s => is_Some (hit_title s) /\ is_Some (hit_url s)) sources <->
  exists bs, Utils.bullets sources = Ok bs.
Proof.
  induction sources as [|src rest IH]; cbn [Utils.bullets].
  - split; [eauto | constructor].
  - unfold Utils.bullet. split.
    + intros Hall. apply Forall_cons in Hall as [[[t Ht] [u Hu]] Hall].
      rewrite Ht, Hu. apply IH in Hall as [bs ->]. eauto.
    + destruct (hit_title src) as [t|] eqn:Ht; [|intros [bs [=]]].
      destruct (hit_url src) as [u|] eqn:Hu; [|intros [bs [=]]].
      destruct (Utils.bullets rest) as [bs'|]; [|intros [bs [=]]].
      intros _. constructor; [rewrite Ht, Hu; split; eexists; reflexivity|].
      apply IH. eauto.
Qed.

(** X12. utils.py, [format_sources]: a response without [results] raises
    [KeyError('results')]; otherwise the call returns exactly when every
    result has a title and a URL. The text is empty when there is no
    result; when there are results and no title or URL contains a newline,
    the lines of the text are the bullets of the results, one per result
    and in their order. *)
Theorem X12_format_sources_bullets (search_results : response) :
  (results search_results = None ->
   Utils.format_sources search_results = Raise (lit "'results'")) /\
  (forall sources, results search_results = Some sources ->
     ((exists out, Utils.format_sources search_results = Ok out) <->
      Forall (fun s => is_Some (hit_title s) /\ is_Some (hit_url s)) sources) /\
     (sources = [] -> Utils.format_sources search_results = Ok []) /\
     (forall out,
        Utils.format_sources search_results = Ok out ->
        sources <> [] ->
        Forall (fun s => (forall t, hit_title s = Some t -> 10%N ∉ t) /\
                         (forall u, hit_url s = Some u -> 10%N ∉ u)) sources ->
        Forall2 (fun s l => exists t u,
                   hit_title s = Some t /\ hit_url s = Some u /\
                   l = lit "* " ++ t ++ lit " : " ++ u)
                sources (split 10%N out))).
Proof.
  unfold Utils.format_sources. split.
  - intros ->. reflexivity.
  - intros sources ->. split; [|split].
    + rewrite bullets_total. split.
      * intros [out H]. destruct (Utils.bullets sources); [eauto|discriminate].
      * intros [bs ->]. eauto.
    + intros ->. reflexivity.
    + intros out Hout Hne Hnl.
      destruct (Utils.bullets sources) as [bs|] eqn:Hbs; [|discriminate].
      injection Hout as <-. apply bullets_ok in Hbs.
      rewrite split_join; [exact Hbs | |].
      * intros ->. apply Forall2_nil_inv_r in Hbs. contradiction.
      * clear Hne. induction Hbs as [|s l sources bs (t & u & Ht & Hu & ->) _ IH];
          [constructor|].
        apply Forall_cons in Hnl as [[Hnt Hnu] Hnl].
        constructor; [|apply IH; exact Hnl].
        rewrite !elem_of_app. intros [H|[H|[H|H]]].
        -- apply list_elem_of_In in H. cbn in H. intuition discriminate.
        -- exact (Hnt t Ht H).
        -- apply list_elem_of_In in H. cbn in H. intuition discriminate.
        -- exact (Hnu u Hu H).
Qed.

Lemma X12_witness :
  results (mkResponse (Some [UtilsScenarios.other_page])) =
    Some [UtilsScenarios.other_page] /\
  Utils.format_sources (mkResponse (Some [UtilsScenarios.other_page])) =
    Ok (lit "* Other : https://b.example").
Proof.
  split; [reflexivity|].
  destruct (proj2 (X12_format_sources_bullets
                     (mkResponse (Some [UtilsScenarios.other_page])))
              [UtilsScenarios.other_page] eq_refl) as [[_ Hok] _].
  destruct Hok as [out Hout];
    [repeat constructor; eexists; reflexivity|].
  rewrite Hout. vm_compute in Hout. injection Hout as <-. reflexivity.
Defined.

Lemma perplexity_search_ok
    (api_key : option str) (post : UtilsSearch.request -> result UtilsSearch.completion)
    (query model : str) (n : Z) (resp : response) :
  let sent key :=
    {| UtilsSearch.authorization := lit "Bearer " ++ key;
       UtilsSearch.payload_model := model;
       UtilsSearch.system_content :=
         lit "Search the web and provide factual information with sources.";
       UtilsSearch.user_content := query |} in
  UtilsSearch.perplexity_search api_key post query model n = Ok resp ->
  exists key data content cits hits,
    api_key = Some key /\ key <> [] /\ post (sent key) = Ok data /\
    UtilsSearch.answer_of data = Ok content /\
    cits = default [lit "https://perplexity.ai"] (UtilsSearch.citations data) /\
    results resp = Some hits /\
    length hits = length cits /\ 1 <= length hits /\
    hit_url <$> hits = Some <$> cits /\
    forall i h, hits !! i = Some h ->
      hit_title h = Some (UtilsSearch.source_title n (S i)) /\
      match i with
      | 0 => hit_content h = Some content /\ hit_raw_content h = Some content
      | S _ => hit_content h = Some (lit "See above.") /\
               hit_raw_content h = None
      end.
Proof.
  intros sent. unfold UtilsSearch.perplexity_search.
  revert resp.
  - intros resp H.
    destruct api_key as [[|c s]|]; [discriminate | | discriminate].
    fold (sent (c :: s)) in H.
    destruct (post (sent (c :: s))) as [data|] eqn:Hpost; [|discriminate].
    destruct (UtilsSearch.answer_of data) as [content|] eqn:Hans; [|discriminate].
    destruct (default [lit "https://perplexity.ai"] (UtilsSearch.citations data))
      as [|first rest] eqn:Hcits; [discriminate|].
    injection H as <-.
    exists (c :: s), data, content, (first :: rest). eexists.
    split; [reflexivity|]. split; [discriminate|]. split; [exact Hpost|].
    split; [exact Hans|]. split; [symmetry; exact Hcits|].
    split; [reflexivity|].
    cbn [tail app length]. rewrite length_map.
    assert (Hlen : forall (l : list str) k, length (enumerate k l) = length l).
    { induction l as [|x l IHl]; intros k; cbn [enumerate length];
        [|rewrite IHl]; reflexivity. }
    rewrite Hlen. split; [reflexivity|]. split; [lia|]. split.
    + cbn [fmap list_fmap hit_url]. f_equal.
      clear Hcits. generalize 2. induction rest as [|x rest IHr]; intros k;
        cbn [enumerate List.map fmap list_fmap hit_url]; [reflexivity|].
      f_equal. apply IHr.
    + intros [|i] h; cbn [lookup list_lookup].
      * intros [= <-]. split; [reflexivity | split; reflexivity].
      * intros Hi.
        assert (Hgen : forall (l : list str) k j,
                  List.map
                    (fun '(i, cit) =>
                       {| hit_title := Some (UtilsSearch.source_title n i);
                          hit_url := Some cit;
                          hit_content := Some (lit "See above.");
                          hit_raw_content := None |})
                    (enumerate k l) !! j = Some h ->
                  hit_title h = Some (UtilsSearch.source_title n (k + j)) /\
                  hit_content h = Some (lit "See above.") /\
                  hit_raw_content h = None).
        { induction l as [|x l IHl]; intros k [|j];
            cbn [enumerate List.map lookup list_lookup]; try discriminate.
          - intros [= <-]. rewrite Nat.add_0_r. repeat split.
          - intros Hj. apply IHl in Hj.
            replace (k + S j) with (S k + j) by lia. exact Hj. }
        apply Hgen in Hi as (Ht & Hc & Hr).
        split; [exact Ht | split; assumption].
Qed.

(** X13. utils.py, [perplexity_search]: the call returns exactly when the
    API key is set and not empty, the HTTP exchange succeeds, the answer
    holds [choices[0].message.content], and the list of citations (the one
    default URL when the answer has none) is not empty; with an empty list
    of citations it raises [IndexError], and without a key it raises
    [RuntimeError] whatever the exchange would answer. On return there is
    one result per
    citation, in order, with the citation as URL and numbered titles; the
    first holds the answer as content and raw content, the others hold
    [See above.] and no raw content. *)
Theorem X13_perplexity_search_results
    (api_key : option str) (post : UtilsSearch.request -> result UtilsSearch.completion)
    (query model : str) (n : Z) :
  let sent key :=
    {| UtilsSearch.authorization := lit "Bearer " ++ key;
       UtilsSearch.payload_model := model;
       UtilsSearch.system_content :=
         lit "Search the web and provide factual information with sources.";
       UtilsSearch.user_content := query |} in
  let run := UtilsSearch.perplexity_search api_key post query model n in
  ((api_key = None \/ api_key = Some []) -> run = Raise UtilsSearch.key_missing) /\
  (forall key data content,
     api_key = Some key -> key <> [] -> post (sent key) = Ok data ->
     UtilsSearch.answer_of data = Ok content ->
     UtilsSearch.citations data = Some [] ->
     run = Raise UtilsSearch.index_error) /\
  (forall resp, run = Ok resp ->
     exists key data content cits hits,
       api_key = Some key /\ key <> [] /\ post (sent key) = Ok data /\
       UtilsSearch.answer_of data = Ok content /\
       cits = default [lit "https://perplexity.ai"] (UtilsSearch.citations data) /\
       results resp = Some hits /\
       length hits = length cits /\ 1 <= length hits /\
       hit_url <$> hits = Some <$> cits /\
       forall i h, hits !! i = Some h ->
         hit_title h = Some (UtilsSearch.source_title n (S i)) /\
         match i with
         | 0 => hit_content h = Some content /\ hit_raw_content h = Some content
         | S _ => hit_content h = Some (lit "See above.") /\
                  hit_raw_content h = None
         end).
Proof.
  intros sent run. subst run. unfold UtilsSearch.perplexity_search.
  split; [|split].
  - intros [-> | ->]; reflexivity.
  - intros key data content -> Hkey Hpost Hans Hcit.
    destruct key as [|c s]; [congruence|]. fold (sent (c :: s)).
    rewrite Hpost, Hans, Hcit. reflexivity.
  - apply perplexity_search_ok.
Qed.

Lemma X13_witness :
  let run := UtilsSearch.perplexity_search (Some (lit "key"))
               UtilsScenarios.two_citations (lit "a question") (lit "sonar") 0 in
  exists resp hits,
    run = Ok resp /\ results resp = Some hits /\ length hits = 2 /\
    hit_url <$> hits = [Some (lit "https://a.example");
                        Some (lit "https://b.example")].
Proof.
  intros run.
  destruct run as [resp|e] eqn:Hrun; [|vm_compute in Hrun; discriminate Hrun].
  destruct (proj2 (proj2 (X13_perplexity_search_results (Some (lit "key"))
                            UtilsScenarios.two_citations (lit "a question")
                            (lit "sonar") 0)) resp Hrun)
    as (key & data & content & cits & hits & _ & _ & Hpost & _ & -> & Hres
        & Hlen & _ & Hurl & _).
  injection Hpost as <-.
  exists resp, hits. split; [reflexivity|]. split; [exact Hres|].
  split; [exact Hlen | exact Hurl].
Defined.

Lemma by_url_nonempty sources d unique :
  Utils.by_url sources d = Ok unique -> sources <> [] -> unique <> [].
Proof.
  revert d. induction sources as [|src rest IH]; intros d H Hne;
    [congruence|].
  cbn [Utils.by_url] in H.
  destruct (hit_url src) as [u|]; [|discriminate].
  destruct rest as [|src' rest].
  - cbn [Utils.by_url] in H. injection H as <-.
    destruct d as [|[k v] d]; cbn [Utils.dict_set]; [discriminate|].
    destruct (decide (k = u)); discriminate.
  - eapply IH; [exact H | discriminate].
Qed.

Lemma by_url_length sources unique :
  Utils.by_url sources [] = Ok unique -> length unique <= length sources.
Proof.
  intros H.
  destruct (by_url_last _ _ _ H NoDup_nil_2) as [Hnd _].
  destruct (by_url_urls _ _ _ H) as [_ Hkeys].
  destruct (first_occurrences (omap hit_url sources)) as [_ Hel].
  cbn [fmap list_fmap] in Hkeys.
  rewrite <- (length_fmap fst unique).
  etransitivity; [|apply (omap_length_le hit_url sources)].
  apply submseteq_length, NoDup_submseteq; [exact Hnd|].
  intros u Hu. rewrite Hkeys in Hu. apply Hel. exact Hu.
Qed.

(** X14. utils.py: whatever [perplexity_search] returns can be formatted.
    On its response neither [format_sources] nor
    [deduplicate_and_format_sources] raises, and the formatted sources hold
    at least one block and at most one per citation. *)
Theorem X14_perplexity_results_can_be_formatted
    (api_key : option str) (post : UtilsSearch.request -> result UtilsSearch.completion)
    (query model : str) (n max : Z) (inc : bool) (resp : response) :
  UtilsSearch.perplexity_search api_key post query model n = Ok resp ->
  (exists out, Utils.format_sources resp = Ok out) /\
  (exists out,
     Utils.deduplicate_and_format_sources (Utils.a_dict resp) max inc = Ok out) /\
  (exists unique,
     Utils.by_url (Utils.get_results resp) [] = Ok unique /\
     1 <= length unique <= length (Utils.get_results resp)).
Proof.
  intros Hrun.
  destruct (perplexity_search_ok api_key post query model n resp Hrun)
    as (key & data & content & cits & hits & _ & _ & _ & _ & _ & Hres
        & _ & Hlen & Hurl & Hhits).
  assert (Hall : Forall (fun h => is_Some (hit_title h) /\ is_Some (hit_url h)
                                  /\ is_Some (hit_content h)) hits).
  { apply Forall_lookup. intros i h Hi.
    destruct (Hhits i h Hi) as [Ht Hc]. rewrite Ht.
    assert (Hu : is_Some (hit_url h)).
    { apply (f_equal (fun l => l !! i)) in Hurl.
      rewrite !list_lookup_fmap, Hi in Hurl. cbn in Hurl.
      destruct (cits !! i) as [u|]; [|discriminate].
      injection Hurl as ->. eauto. }
    split; [eauto|]. split; [exact Hu|].
    destruct i; destruct Hc as [-> _]; eauto. }
  assert (Hget : Utils.get_results resp = hits).
  { unfold Utils.get_results. rewrite Hres. reflexivity. }
  assert (Hurls : Forall (fun h => is_Some (hit_url h)) hits).
  { eapply Forall_impl; [exact Hall|]. intros h (_ & Hu & _). exact Hu. }
  destruct (by_url_total hits [] Hurls) as [unique Hu].
  split; [|split].
  - unfold Utils.format_sources. rewrite Hres.
    assert (Hb : exists bs, Utils.bullets hits = Ok bs).
    { apply bullets_total. eapply Forall_impl; [exact Hall|].
      intros h (Ht & Hu' & _). auto. }
    destruct Hb as [bs ->]. eauto.
  - unfold Utils.deduplicate_and_format_sources. rewrite Hget, Hu.
    assert (Hkept : Forall (fun h => is_Some (hit_title h) /\
                                     is_Some (hit_url h) /\
                                     is_Some (hit_content h)) (unique.*2)).
    { apply Forall_forall. intros x Hx.
      apply list_elem_of_fmap in Hx as ([k x'] & -> & Hin).
      destruct (by_url_last _ _ _ Hu NoDup_nil_2) as [_ Hlast].
      destruct (Hlast k x' Hin) as [[Hnil _]|(b & a & Hsplit & _)].
      - apply elem_of_nil in Hnil. destruct Hnil.
      - apply (proj1 (Forall_forall _ _) Hall). rewrite Hsplit.
        apply elem_of_app. right. left. }
    apply (format_loop_ok max inc _ [lit "Sources:" ++ nl]) in Hkept
      as [lines ->].
    eauto.
  - exists unique. rewrite Hget. split; [exact Hu|]. split.
    + assert (Hne : unique <> []).
      { apply (by_url_nonempty hits [] unique Hu).
        intros ->. cbn in Hlen. lia. }
      destruct unique; [congruence | cbn; lia].
    + apply by_url_length. exact Hu.
Qed.

Lemma X14_witness :
  exists resp,
    UtilsSearch.perplexity_search (Some (lit "key"))
      UtilsScenarios.two_citations (lit "a question") (lit "sonar") 0 = Ok resp /\
    exists out, Utils.format_sources resp = Ok out.
Proof.
  destruct (UtilsSearch.perplexity_search (Some (lit "key"))
              UtilsScenarios.two_citations (lit "a question") (lit "sonar") 0)
    as [resp|e] eqn:Hrun; [|vm_compute in Hrun; discriminate Hrun].
  exists resp. split; [reflexivity|].
  exact (proj1 (X14_perplexity_results_can_be_formatted _ _ _ _ _ 2048 false
                  resp Hrun)).
Defined.
